(** * mock-ease: the MockServer builder of [lib/mock-ease.js]

    A shallow embedding of the [MockServer] class (the compiled
    [lib/mock-ease.js], whose TypeScript source is the same text with type
    annotations) and the properties of its route-registration and
    response-resolution contract.

    Conventions of the embedding:
    - a JavaScript [number] argument is an integer ([Z]); an optional
      argument is an [option], [None] standing for [undefined];
    - a schema producer is a zero-argument function that may read and write
      ambient state and may throw: it is a state transformer on a heap [W]
      that either returns a JSON value or throws.  Every value returned is
      recorded in a ghost trace, so that "how many times, in which order"
      can be stated;
    - an exception nothing in the class catches leaves the handler: the
      handler has then written no response, and what the client receives
      is up to the framework;
    - the web framework is represented by the part of its contract the class
      relies on: a router is an ordered stack of layers walked front to back,
      a layer either answers or hands over to the next one;
    - the platform's [path.join] is represented by its POSIX form;
    - an array holds at most [2^32 - 1] items, as the language has it;
      memory is not modelled. *)

From Stdlib Require Import ZArith Lia Ascii String.
From stdpp Require Import base strings list gmap pretty.

Local Open Scope Z_scope.
Local Open Scope string_scope.
Local Open Scope list_scope.

(** ** JSON values *)

#[warnings="-register-all"]
Inductive json : Type :=
| JNull
| JBool (b : bool)
| JNum (z : Z)
| JStr (s : string)
| JArr (items : list json)
| JObj (fields : list (string * json)).

(** ** JavaScript helpers used by the class *)

(** Truthiness of a number: every number but [0] is truthy. *)
Definition truthy (n : Z) : bool := negb (Z.eqb n 0).

(** Truthiness of an optional number: [undefined] is falsy. *)
Definition truthy_opt (n : option Z) : bool :=
  match n with
  | Some k => truthy k
  | None => false
  end.

(** [ToLength] of an optional integer: [undefined] and negative lengths
    count as [0], lengths above [2^53 - 1] as [2^53 - 1]. *)
Definition ToLength (n : option Z) : Z :=
  match n with
  | Some k => Z.min (Z.max k 0) 9007199254740991
  | None => 0
  end.

(** The longest array: [2^32 - 1] items. *)
Definition max_array_length : Z := 4294967295.

Definition toUpperCase_ascii (c : ascii) : ascii :=
  let n := N_of_ascii c in
  if ((97 <=? n) && (n <=? 122))%N then ascii_of_N (n - 32) else c.

Fixpoint toUpperCase (s : string) : string :=
  match s with
  | EmptyString => EmptyString
  | String c rest => String (toUpperCase_ascii c) (toUpperCase rest)
  end.

Fixpoint repeat_char (c : ascii) (n : nat) : string :=
  match n with
  | O => EmptyString
  | S k => String c (repeat_char c k)
  end.

(** [s.padEnd(n, c)] for a one-character filler. *)
Definition padEnd (n : nat) (c : ascii) (s : string) : string :=
  s +:+ repeat_char c (Nat.sub n (String.length s)).

(** [s.replace(/\\/g, '/')] *)
Fixpoint replace_backslashes (s : string) : string :=
  match s with
  | EmptyString => EmptyString
  | String c rest =>
      String (if Ascii.eqb c "\"%char then "/"%char else c)
             (replace_backslashes rest)
  end.

(** ** [path.join], in its POSIX form

    The pieces of the joined arguments are taken between slashes; empty
    pieces and [.] are dropped, [..] drops the piece before it (or stays,
    in a relative path with nothing before it); what is left is put
    together again with single slashes, keeping a leading and a trailing
    slash. *)

Fixpoint split_slash (s : string) : list string :=
  match s with
  | EmptyString => [EmptyString]
  | String c rest =>
      if Ascii.eqb c "/"%char then EmptyString :: split_slash rest
      else match split_slash rest with
           | piece :: pieces => String c piece :: pieces
           | [] => [String c EmptyString]
           end
  end.

Definition starts_with_slash (s : string) : bool :=
  match s with
  | String c _ => Ascii.eqb c "/"%char
  | EmptyString => false
  end.

Fixpoint ends_with_slash (s : string) : bool :=
  match s with
  | EmptyString => false
  | String c EmptyString => Ascii.eqb c "/"%char
  | String _ rest => ends_with_slash rest
  end.

(** [kept] holds the pieces kept so far, the latest first. *)
Fixpoint resolve_pieces (allowAboveRoot : bool) (kept pieces : list string)
  : list string :=
  match pieces with
  | [] => rev kept
  | piece :: rest =>
      if String.eqb piece "" || String.eqb piece "."
      then resolve_pieces allowAboveRoot kept rest
      else if String.eqb piece ".."
      then match kept with
           | latest :: before =>
               if String.eqb latest ".."
               then resolve_pieces allowAboveRoot
                      (if allowAboveRoot then ".." :: kept else kept) rest
               else resolve_pieces allowAboveRoot before rest
           | [] =>
               resolve_pieces allowAboveRoot
                 (if allowAboveRoot then [".."] else []) rest
           end
      else resolve_pieces allowAboveRoot (piece :: kept) rest
  end.

Definition posix_normalize (path : string) : string :=
  if String.eqb path "" then "."
  else
    let isAbsolute := starts_with_slash path in
    let trailingSeparator := ends_with_slash path in
    let resolved :=
      String.concat "/"
        (resolve_pieces (negb isAbsolute) [] (split_slash path)) in
    if String.eqb resolved ""
    then (if isAbsolute then "/" else if trailingSeparator then "./" else ".")
    else (if isAbsolute then "/" else "")
         +:+ resolved +:+ (if trailingSeparator then "/" else "").

Definition posix_join (parts : list string) : string :=
  match filter (fun part => part <> "") parts with
  | [] => "."
  | given => posix_normalize (String.concat "/" given)
  end.

(** ** HTTP vocabulary *)

Inductive Method : Type := GET | POST | PUT | DELETE | PATCH.

#[global] Instance Method_eq_dec : EqDecision Method.
Proof. solve_decision. Defined.

(** The name under which the framework stores a route's method. *)
Definition method_name (m : Method) : string :=
  match m with
  | GET => "get"
  | POST => "post"
  | PUT => "put"
  | DELETE => "delete"
  | PATCH => "patch"
  end.

Record Request : Type := mkRequest {
  req_method : Method;
  req_path : string;
  headers : gmap string string
}.

Record Response : Type := mkResponse {
  statusCode : Z;
  contentType : string;
  body : json
}.

(** The response object handed to a handler: [status] sets the code,
    [json_] serialises a value and ends the response. *)
Record Res : Type := mkRes { res_statusCode : Z }.

Definition fresh_res : Res := {| res_statusCode := 200 |}.

Definition status (code : Z) (res : Res) : Res :=
  {| res_statusCode := code |}.

Definition json_ (value : json) (res : Res) : Response :=
  {| statusCode := res_statusCode res;
     contentType := "application/json";
     body := value |}.

(** What a [throw] carries: the [RangeError] of an array that cannot be
    that long, or a value thrown by a schema producer. *)
Inductive thrown : Type :=
| RangeError
| Raised (value : json).

(** How an evaluation ends: with a value, or with a [throw]. *)
Inductive completion (A : Type) : Type :=
| Return (a : A)
| Throw (e : thrown).

Arguments Return {A} a.
Arguments Throw {A} e.

(** What a layer does with a request. *)
Inductive outcome : Type :=
| Sent (r : Response)
    (** the response was written before the handler returned *)
| Timer (ms : option Z) (r : Response)
    (** [setTimeout(cb, ms)] was armed; [cb] writes [r] when it fires *)
| Next
    (** [next()] was called, or no layer answered *)
| Threw (e : thrown).
    (** an exception left the handler, which wrote nothing *)

Definition emitted (o : outcome) : option Response :=
  match o with
  | Sent r => Some r
  | Timer _ r => Some r
  | Next => None
  | Threw _ => None
  end.

(** An exception that reaches the end of a handler leaves it. *)
Definition settle (r : completion outcome) : outcome :=
  match r with
  | Return o => o
  | Throw e => Threw e
  end.

(** ** Schema producers and the request-time state *)

Section MockServer.

Context {W : Type}.

(** Two parts of the platform the class delegates to: the framework's test
    of a route pattern against a request path, and [path.join] (on a POSIX
    platform, [posix_join]). *)
Context (path_match : string -> string -> bool).
Context (path_join : list string -> string).

(** A schema producer: [() => value], with its effect on the heap; it
    returns a value or throws. *)
Definition Schema : Type := W -> completion json * W.

(** The state threaded through the program: the heap the producers act on
    and the ghost trace of the values their invocations returned. *)
Record world : Type := mkWorld {
  heap : W;
  invoked : list json
}.

Definition M (A : Type) : Type := world -> A * world.

Definition ret {A} (a : A) : M A := fun w => (a, w).

Definition bind {A B} (c : M A) (k : A -> M B) : M B :=
  fun w => let (a, w') := c w in k a w'.

Notation "'do' x <- c ; k" := (bind c (fun x => k))
  (at level 10, x name, c at level 100, k at level 200,
   format "'[v' 'do'  x  <-  c ; '/' k ']'").

(** Sequencing of evaluations that may throw: a [throw] skips what
    follows. *)
Definition bindT {A B} (c : M (completion A)) (k : A -> M (completion B))
  : M (completion B) :=
  do r <- c;
  match r with
  | Return a => k a
  | Throw e => ret (Throw e)
  end.

Notation "'ok' x <- c ; k" := (bindT c (fun x => k))
  (at level 10, x name, c at level 100, k at level 200,
   format "'[v' 'ok'  x  <-  c ; '/' k ']'").

(** [responseSchema()] *)
Definition invoke (responseSchema : Schema) : M (completion json) :=
  fun w =>
    let (r, h) := responseSchema (heap w) in
    (r, {| heap := h;
           invoked := invoked w ++ match r with
                                   | Return v => [v]
                                   | Throw _ => []
                                   end |}).

Fixpoint replicateM (n : nat) (f : M (completion json))
  : M (completion (list json)) :=
  match n with
  | O => ret (Return [])
  | S k =>
      ok v <- f;
      ok vs <- replicateM k f;
      ret (Return (v :: vs))
  end.

(** [Array.from({ length: n }, f)]: the array is allocated first, which
    throws a [RangeError] when the length is above the longest array; then
    [f] is called once per index, in increasing index order. *)
Definition Array_from (n : option Z) (f : M (completion json))
  : M (completion (list json)) :=
  let len := ToLength n in
  if Z.ltb max_array_length len
  then ret (Throw RangeError)
  else replicateM (Z.to_nat len) f.

(** ** The class *)

(** A route handler closure [(req, res) => ...].  It captures [this]; the
    only field it reads, when the request is handled, is [this._delay],
    passed here as the first argument. *)
Definition Handler : Type := Z -> Request -> Res -> M outcome.

(** A middleware closure [(req, res, next) => ...] installed by
    [router.use]. *)
Definition Middleware : Type := Request -> Res -> outcome.

(** One entry of [router.stack]. *)
Inductive layer : Type :=
| LUse (mw : Middleware)
| LRoute (m : Method) (path : string) (h : Handler).

(** One entry of the application's own stack. *)
Inductive app_layer : Type :=
| AppMiddleware (name : string)
| AppRoute (m : Method) (path : string)
| AppRouter (mountpath : string).
    (** [server.use(prefix, this.router)]: the layer named [router], whose
        [handle] is the live [this.router] *)

Record MockServer : Type := mkMockServer {
  serverName : string;
  server : list app_layer;
  router : list layer;
  _routePrefix : string;
  _delay : Z
}.

(** [constructor(serverName)] *)
Definition new_MockServer (name : option string) : MockServer :=
  {| serverName :=
       match name with
       | Some s => if String.eqb s "" then "Mock Server" else s
       | None => "Mock Server"
       end;
     server := [AppMiddleware "query"; AppMiddleware "expressInit";
                AppMiddleware "jsonParser"];
     router := [];
     _routePrefix := "";
     _delay := 0 |}.

Definition CreateNewServer (name : option string) : MockServer :=
  new_MockServer name.

(** [SendResponseWithDelay(res, response, delay)], with [this._delay]. *)
Definition SendResponseWithDelay
    (this_delay : Z) (res : Res) (response : json) (delay : option Z)
  : outcome :=
  if truthy_opt delay || truthy this_delay
  then Timer delay (json_ response (status 200 res))
  else Sent (json_ response (status 200 res)).

Definition SetDelay (delay : Z) (this : MockServer) : MockServer :=
  {| serverName := serverName this; server := server this;
     router := router this; _routePrefix := _routePrefix this;
     _delay := delay |}.

Definition SetRoutePrefix (prefix : string) (this : MockServer) : MockServer :=
  {| serverName := serverName this; server := server this;
     router := router this; _routePrefix := prefix;
     _delay := _delay this |}.

(** [this.router.use(mw)], [this.router.get(route, h)], ... *)
Definition router_push (l : layer) (this : MockServer) : MockServer :=
  {| serverName := serverName this; server := server this;
     router := router this ++ [l]; _routePrefix := _routePrefix this;
     _delay := _delay this |}.

Definition unauthorized : Response :=
  json_ (JObj [("message", JStr "Unauthorized")]) (status 401 fresh_res).

(** The closure [EnableAuth] installs. *)
Definition auth_gate (dummyToken key : string) : Middleware :=
  fun req res =>
    if bool_decide (headers req !! key = Some ("Bearer " +:+ dummyToken))
       || bool_decide (headers req !! key = Some dummyToken)
    then Next
    else Sent (json_ (JObj [("message", JStr "Unauthorized")])
                     (status 401 res)).

Definition EnableAuth (dummyToken : string) (headerKey : option string)
    (this : MockServer) : MockServer :=
  let key := default "authorization" headerKey in
  router_push (LUse (auth_gate dummyToken key)) this.

(** The closure [BindNewGETRoute] installs. *)
Definition GETHandler (responseSchema : Schema)
    (maxResults delay : option Z) : Handler :=
  fun this_delay req res =>
    do r <-
      (ok response <- invoke responseSchema;
       ok response <-
         (if truthy_opt maxResults
          then ok items <- Array_from maxResults (invoke responseSchema);
               ret (Return (JArr items))
          else ret (Return response));
       ret (Return (SendResponseWithDelay this_delay res response delay)));
    ret (settle r).

(** The closure the POST, PUT, DELETE and PATCH binders install. *)
Definition plainHandler (responseSchema : Schema) (delay : option Z)
  : Handler :=
  fun this_delay req res =>
    do r <-
      (ok response <- invoke responseSchema;
       ret (Return (SendResponseWithDelay this_delay res response delay)));
    ret (settle r).

Definition BindNewGETRoute (route : string) (responseSchema : Schema)
    (maxResults delay : option Z) (this : MockServer) : MockServer :=
  router_push (LRoute GET route (GETHandler responseSchema maxResults delay))
              this.

Definition BindNewPOSTRoute (route : string) (responseSchema : Schema)
    (delay : option Z) (this : MockServer) : MockServer :=
  router_push (LRoute POST route (plainHandler responseSchema delay)) this.

Definition BindNewPUTRoute (route : string) (responseSchema : Schema)
    (delay : option Z) (this : MockServer) : MockServer :=
  router_push (LRoute PUT route (plainHandler responseSchema delay)) this.

Definition BindNewDELETERoute (route : string) (responseSchema : Schema)
    (delay : option Z) (this : MockServer) : MockServer :=
  router_push (LRoute DELETE route (plainHandler responseSchema delay)) this.

Definition BindNewPATCHRoute (route : string) (responseSchema : Schema)
    (delay : option Z) (this : MockServer) : MockServer :=
  router_push (LRoute PATCH route (plainHandler responseSchema delay)) this.

Definition BindCrudRoutes (moduleName : string) (schema : Schema)
    (maxResults delay : option Z) (this : MockServer) : MockServer :=
  let this := BindNewGETRoute ("/" +:+ moduleName) schema maxResults delay this in
  let this := BindNewPOSTRoute ("/" +:+ moduleName +:+ "/create") schema delay this in
  let this := BindNewPUTRoute ("/" +:+ moduleName +:+ "/update") schema delay this in
  let this := BindNewDELETERoute ("/" +:+ moduleName +:+ "/delete") schema delay this in
  let this := BindNewPATCHRoute ("/" +:+ moduleName +:+ "/patch-update") schema delay this in
  this.

(** ** Request dispatch *)

(** The router walks its stack front to back.  A middleware layer sees every
    request; a route layer sees the requests of its method whose path its
    pattern matches.  A layer that neither answers nor arms a timer hands
    over to the rest of the stack.  [req_path] is the path below the mount
    point. *)
Fixpoint dispatch (stack : list layer) (this_delay : Z) (req : Request)
  : M outcome :=
  match stack with
  | [] => ret Next
  | LUse mw :: rest =>
      match mw req fresh_res with
      | Next => dispatch rest this_delay req
      | o => ret o
      end
  | LRoute m path h :: rest =>
      if bool_decide (m = req_method req) && path_match path (req_path req)
      then do o <- h this_delay req fresh_res;
           match o with
           | Next => dispatch rest this_delay req
           | _ => ret o
           end
      else dispatch rest this_delay req
  end.

Definition handle_request (this : MockServer) (req : Request) : M outcome :=
  dispatch (router this) (_delay this) req.

(** ** Fluent chains *)

(** One call of a builder chain [CreateNewServer(..).A(..).B(..)...]. *)
Inductive call : Type :=
| CSetDelay (delay : Z)
| CEnableAuth (dummyToken : string) (headerKey : option string)
| CSetRoutePrefix (prefix : string)
| CBindCrudRoutes (moduleName : string) (schema : Schema)
    (maxResults delay : option Z)
| CBindNewGETRoute (route : string) (responseSchema : Schema)
    (maxResults delay : option Z)
| CBindNewPOSTRoute (route : string) (responseSchema : Schema)
    (delay : option Z)
| CBindNewPUTRoute (route : string) (responseSchema : Schema)
    (delay : option Z)
| CBindNewDELETERoute (route : string) (responseSchema : Schema)
    (delay : option Z)
| CBindNewPATCHRoute (route : string) (responseSchema : Schema)
    (delay : option Z).

Definition apply_call (c : call) (this : MockServer) : MockServer :=
  match c with
  | CSetDelay d => SetDelay d this
  | CEnableAuth t k => EnableAuth t k this
  | CSetRoutePrefix p => SetRoutePrefix p this
  | CBindCrudRoutes m s mr d => BindCrudRoutes m s mr d this
  | CBindNewGETRoute r s mr d => BindNewGETRoute r s mr d this
  | CBindNewPOSTRoute r s d => BindNewPOSTRoute r s d this
  | CBindNewPUTRoute r s d => BindNewPUTRoute r s d this
  | CBindNewDELETERoute r s d => BindNewDELETERoute r s d this
  | CBindNewPATCHRoute r s d => BindNewPATCHRoute r s d this
  end.

Definition chain (cs : list call) (this : MockServer) : MockServer :=
  fold_left (fun s c => apply_call c s) cs this.

(** ** Start and the startup log *)

Inductive console : Type :=
| Log (line : string)
| Group (label : string)
| GroupEnd.

Definition joinPath (parts : list string) : string :=
  replace_backslashes (path_join parts).

Definition logRoutes (this : MockServer) : list console :=
  [Group ("Registered Routes By " +:+ serverName this +:+ ":")]
  ++ flat_map (fun middleware =>
       match middleware with
       | AppRoute m path =>
           [Log (toUpperCase (method_name m) +:+ " - " +:+ path)]
       | AppRouter _ =>
           flat_map (fun handler =>
             match handler with
             | LRoute m path _ =>
                 let method := toUpperCase (method_name m) in
                 [Log (padEnd 6 " " method +:+ " -  "
                       +:+ joinPath [_routePrefix this; path])]
             | LUse _ => []
             end) (router this)
       | AppMiddleware _ => []
       end) (server this)
  ++ [Log ""; GroupEnd].

(** [Start(port)]: mount the router at the prefix, then listen. *)
Definition Start (port : option Z) (this : MockServer) : MockServer :=
  {| serverName := serverName this;
     server := server this ++ [AppRouter (_routePrefix this)];
     router := router this; _routePrefix := _routePrefix this;
     _delay := _delay this |}.

(** The callback [Start] passes to [listen], run once the socket is bound. *)
Definition on_listening (port : option Z) (this : MockServer)
  : list console :=
  Log (serverName this +:+ " running at http://localhost:"
       +:+ pretty (default 3005 port))
  :: logRoutes this.

End MockServer.

Arguments Schema : clear implicits.
Arguments world : clear implicits.
Arguments M : clear implicits.
Arguments Handler : clear implicits.
Arguments layer : clear implicits.
Arguments MockServer : clear implicits.
Arguments call : clear implicits.

(** ** The earlier revision of the binders

    The repository also carries an earlier revision of the class (no delay
    support), in which a binder evaluates the schema producer while binding
    and the handler closure replays the stored value.  A producer that
    throws there throws out of the binder. *)

Module Legacy.
Section Legacy.

Context {W : Type}.

Notation "'ok' x <- c ; k" := (bindT c (fun x => k))
  (at level 10, x name, c at level 100, k at level 200).

Definition storedHandler (response : json) : Handler W :=
  fun _ req res => ret (Sent (json_ response (status 200 res))).

Definition BindNewGETRoute (route : string) (responseSchema : Schema W)
    (maxResults : option Z) (this : MockServer W)
  : M W (completion (MockServer W)) :=
  ok response <- invoke responseSchema;
  ok response <-
    (if truthy_opt maxResults
     then ok items <- Array_from maxResults (invoke responseSchema);
          ret (Return (JArr items))
     else ret (Return response));
  ret (Return (router_push (LRoute GET route (storedHandler response)) this)).

Definition BindNewPOSTRoute (route : string) (responseSchema : Schema W)
    (this : MockServer W) : M W (completion (MockServer W)) :=
  ok response <- invoke responseSchema;
  ret (Return (router_push (LRoute POST route (storedHandler response)) this)).

Definition BindNewPUTRoute (route : string) (responseSchema : Schema W)
    (this : MockServer W) : M W (completion (MockServer W)) :=
  ok response <- invoke responseSchema;
  ret (Return (router_push (LRoute PUT route (storedHandler response)) this)).

Definition BindNewDELETERoute (route : string) (responseSchema : Schema W)
    (this : MockServer W) : M W (completion (MockServer W)) :=
  ok response <- invoke responseSchema;
  ret (Return (router_push (LRoute DELETE route (storedHandler response))
                 this)).

Definition BindNewPATCHRoute (route : string) (responseSchema : Schema W)
    (this : MockServer W) : M W (completion (MockServer W)) :=
  ok response <- invoke responseSchema;
  ret (Return (router_push (LRoute PATCH route (storedHandler response))
                 this)).

Definition BindCrudRoutes (moduleName : string) (schema : Schema W)
    (maxResults : option Z) (this : MockServer W)
  : M W (completion (MockServer W)) :=
  ok this <- BindNewGETRoute ("/" +:+ moduleName) schema maxResults this;
  ok this <- BindNewPOSTRoute ("/" +:+ moduleName +:+ "/create") schema this;
  ok this <- BindNewPUTRoute ("/" +:+ moduleName +:+ "/update") schema this;
  ok this <- BindNewDELETERoute ("/" +:+ moduleName +:+ "/delete") schema this;
  ok this <- BindNewPATCHRoute ("/" +:+ moduleName +:+ "/patch-update")
               schema this;
  ret (Return this).

End Legacy.
End Legacy.

(** ** Vocabulary of the statements *)

Section Vocabulary.

Context {W : Type}.

(** [n] successive invocations of a producer, as a pure function of the
    heap: the values in invocation order and the heap left behind, or the
    first [throw] and the heap at that point. *)
Fixpoint produce (n : nat) (s : Schema W) (h : W)
  : completion (list json) * W :=
  match n with
  | O => (Return [], h)
  | S k =>
      match s h with
      | (Return v, h1) =>
          match produce k s h1 with
          | (Return vs, h2) => (Return (v :: vs), h2)
          | (Throw e, h2) => (Throw e, h2)
          end
      | (Throw e, h1) => (Throw e, h1)
      end
  end.

(** The single-route binder of a method, with [maxResults] left out. *)
Definition bind_route (m : Method) (route : string) (s : Schema W)
    (delay : option Z) (this : MockServer W) : MockServer W :=
  match m with
  | GET => BindNewGETRoute route s None delay this
  | POST => BindNewPOSTRoute route s delay this
  | PUT => BindNewPUTRoute route s delay this
  | DELETE => BindNewDELETERoute route s delay this
  | PATCH => BindNewPATCHRoute route s delay this
  end.

(** The layers a call appends to the router stack. *)
Definition layers_of (c : call W) : list (layer W) :=
  match c with
  | CSetDelay _ | CSetRoutePrefix _ => []
  | CEnableAuth t k => [LUse (auth_gate t (default "authorization" k))]
  | CBindCrudRoutes m s mr d =>
      [LRoute GET ("/" +:+ m) (GETHandler s mr d);
       LRoute POST ("/" +:+ m +:+ "/create") (plainHandler s d);
       LRoute PUT ("/" +:+ m +:+ "/update") (plainHandler s d);
       LRoute DELETE ("/" +:+ m +:+ "/delete") (plainHandler s d);
       LRoute PATCH ("/" +:+ m +:+ "/patch-update") (plainHandler s d)]
  | CBindNewGETRoute r s mr d => [LRoute GET r (GETHandler s mr d)]
  | CBindNewPOSTRoute r s d => [LRoute POST r (plainHandler s d)]
  | CBindNewPUTRoute r s d => [LRoute PUT r (plainHandler s d)]
  | CBindNewDELETERoute r s d => [LRoute DELETE r (plainHandler s d)]
  | CBindNewPATCHRoute r s d => [LRoute PATCH r (plainHandler s d)]
  end.

(** The route bindings (method, pattern) held by a router stack, in stack
    order. *)
Definition bindings (stack : list (layer W)) : list (Method * string) :=
  flat_map (fun l =>
    match l with
    | LRoute m path _ => [(m, path)]
    | LUse _ => []
    end) stack.

(** The route bindings a chain of calls registers, in call order. *)
Definition registered (cs : list (call W)) : list (Method * string) :=
  bindings (flat_map layers_of cs).

(** The prefix in force after a chain of calls. *)
Definition prefix_after (cs : list (call W)) (start : string) : string :=
  fold_left (fun p c =>
    match c with
    | CSetRoutePrefix q => q
    | _ => p
    end) cs start.

(** A method in capitals, filled with blanks to six characters. *)
Definition METHOD6 (m : Method) : string :=
  match m with
  | GET => "GET   "
  | POST => "POST  "
  | PUT => "PUT   "
  | DELETE => "DELETE"
  | PATCH => "PATCH "
  end.

(** Does the binding (method, pattern) take the request? *)
Definition takes (path_match : string -> string -> bool) (req : Request)
    (b : Method * string) : bool :=
  bool_decide (b.1 = req_method req) && path_match b.2 (req_path req).

(** The header value is the bare token or the token after ["Bearer "]. *)
Definition authorized (dummyToken key : string) (req : Request) : Prop :=
  headers req !! key = Some dummyToken
  \/ headers req !! key = Some ("Bearer " +:+ dummyToken).

(** A layer that cannot answer the request with anything but the gate's
    refusal: a gate, or a route that does not take the request. *)
Definition bystander (path_match : string -> string -> bool) (req : Request)
    (l : layer W) : Prop :=
  match l with
  | LUse mw => exists t key, mw = auth_gate t key
  | LRoute m path _ => takes path_match req (m, path) = false
  end.

End Vocabulary.

(** ** Sample data *)

(** A producer with a visible effect: an auto-incrementing identifier. *)
Definition next_id : Schema nat :=
  fun n => (Return (JNum (Z.of_nat n)), S n).

(** A producer that counts its invocations and throws at each. *)
Definition failing : Schema nat :=
  fun n => (Throw (Raised (JStr "no data")), S n).

Definition start_world : world nat := {| heap := O; invoked := [] |}.

(** Literal route patterns are matched by equality. *)
Definition literal_match (pattern path : string) : bool :=
  String.eqb pattern path.

(** A request without headers, and one carrying the bearer form of the
    token ["secret"]. *)
Definition sample_request : Request := mkRequest GET "/users" ∅.

Definition signed_request : Request :=
  mkRequest POST "/users/create" {[ "authorization" := "Bearer secret" ]}.

(** A producer without effect, and a stand-in for [path.join] on segments
    that need no normalising. *)
Definition hello : Schema nat :=
  fun h => (Return (JObj [("message", JStr "hello")]), h).

Definition plain_join (parts : list string) : string :=
  String.concat "" parts.

(** A server with one gate and no route. *)
Definition gated_server : MockServer nat :=
  EnableAuth "secret" None (CreateNewServer None).

(** ** Further vocabulary *)

Section MoreVocabulary.

Context {W : Type}.

(** The pattern [BindCrudRoutes] derives for a method from the module
    name. *)
Definition crud_path (moduleName : string) (m : Method) : string :=
  match m with
  | GET => "/" +:+ moduleName
  | POST => "/" +:+ moduleName +:+ "/create"
  | PUT => "/" +:+ moduleName +:+ "/update"
  | DELETE => "/" +:+ moduleName +:+ "/delete"
  | PATCH => "/" +:+ moduleName +:+ "/patch-update"
  end.

(** The handler closure [BindCrudRoutes] installs for a method. *)
Definition crud_handler (m : Method) (s : Schema W)
    (maxResults delay : option Z) : Handler W :=
  match m with
  | GET => GETHandler s maxResults delay
  | _ => plainHandler s delay
  end.

(** One of the two handler closures of the class. *)
Definition class_handler (h : Handler W) : Prop :=
  (exists s mr d, h = GETHandler s mr d) \/ (exists s d, h = plainHandler s d).

(** Is the call a [SetDelay]? *)
Definition sets_delay (c : call W) : bool :=
  match c with
  | CSetDelay _ => true
  | _ => false
  end.




(** A path piece that joining leaves alone: not empty, not [.] or [..],
    without a slash or a backslash. *)
Definition clean_segment (seg : string) : Prop :=
  seg <> "" /\ seg <> "." /\ seg <> ".."
  /\ ~ In "/"%char (list_ascii_of_string seg)
  /\ ~ In "\"%char (list_ascii_of_string seg).

(** The path [/seg1/seg2/...]. *)
Definition slash_path (segs : list string) : string :=
  fold_right (fun seg rest => "/" +:+ seg +:+ rest) "" segs.

(** A prefix made of clean pieces (the empty prefix is one), and a route
    pattern made of at least one clean piece. *)
Definition clean_prefix (prefix : string) : Prop :=
  exists segs, Forall clean_segment segs /\ prefix = slash_path segs.

Definition clean_pattern (pattern : string) : Prop :=
  exists segs, segs <> [] /\ Forall clean_segment segs
               /\ pattern = slash_path segs.

(** [n] copies of a value. *)
Definition copies (n : Z) (v : json) : list json :=
  repeat v (Z.to_nat n).

End MoreVocabulary.

(** * Properties *)

(** ** Delay resolution and the shape of a response *)

Section Responses.

Context {W : Type}.
Implicit Types (s : Schema W) (w : world W) (res : Res) (req : Request).

Lemma SendResponseWithDelay_emits d res v delay :
  emitted (SendResponseWithDelay d res v delay)
  = Some (mkResponse 200 "application/json" v).
Proof.
  unfold SendResponseWithDelay.
  destruct (truthy_opt delay || truthy d); reflexivity.
Qed.

(** A truthy route-level delay is the timer's delay, whatever the server
    default is. *)
Lemma SendResponseWithDelay_route d res v k :
  k <> 0 ->
  SendResponseWithDelay d res v (Some k)
  = Timer (Some k) (mkResponse 200 "application/json" v).
Proof.
  intros Hk. unfold SendResponseWithDelay, truthy_opt, truthy.
  destruct (Z.eqb_spec k 0) as [->|_]; [lia|reflexivity].
Qed.

(** No route-level delay and a server default of [0]: written at once. *)
Lemma SendResponseWithDelay_sync res v :
  SendResponseWithDelay 0 res v None
  = Sent (mkResponse 200 "application/json" v).
Proof. reflexivity. Qed.

(** No route-level delay and a non-zero server default: a timer is armed,
    and the delay handed to it is the absent route-level one. *)
Lemma SendResponseWithDelay_default d res v :
  d <> 0 ->
  SendResponseWithDelay d res v None
  = Timer None (mkResponse 200 "application/json" v).
Proof.
  intros Hd. unfold SendResponseWithDelay, truthy_opt, truthy.
  destruct (Z.eqb_spec d 0) as [->|_]; [lia|reflexivity].
Qed.

Lemma truthy_opt_Some n : truthy_opt (Some n) = true <-> n <> 0.
Proof.
  unfold truthy_opt, truthy. destruct (Z.eqb_spec n 0); simpl; split;
    (done || lia || intros; lia).
Qed.

Lemma invoke_eq s w v h :
  s (heap w) = (Return v, h) ->
  invoke s w = (Return v, {| heap := h; invoked := invoked w ++ [v] |}).
Proof. intros E. unfold invoke. rewrite E. reflexivity. Qed.

Lemma invoke_throws s w e h :
  s (heap w) = (Throw e, h) ->
  invoke s w = (Throw e, {| heap := h; invoked := invoked w |}).
Proof.
  intros E. unfold invoke. rewrite E. by rewrite app_nil_r.
Qed.

(** [n] invocations in a row that all return extend the trace by the [n]
    values produced, in order. *)
Lemma replicateM_invoke n s : forall w vs h,
  produce n s (heap w) = (Return vs, h) ->
  replicateM n (invoke s) w
  = (Return vs, {| heap := h; invoked := invoked w ++ vs |}).
Proof.
  induction n as [|n IH]; intros w vs h E; simpl in E.
  - inversion E; subst. unfold replicateM, ret.
    rewrite app_nil_r. destruct w; reflexivity.
  - destruct (s (heap w)) as [[v|e] h1] eqn:Es; [|discriminate].
    destruct (produce n s h1) as [[vs'|e] h2] eqn:Ep; [|discriminate].
    inversion E; subst. simpl. unfold bindT at 1, bind at 1.
    rewrite (invoke_eq _ _ _ _ Es).
    unfold bindT at 1, bind at 1.
    rewrite (IH {| heap := h1; invoked := invoked w ++ [v] |} vs' h Ep).
    unfold ret. simpl. rewrite <- app_assoc. reflexivity.
Qed.

Lemma produce_length n s : forall h vs h',
  produce n s h = (Return vs, h') -> length vs = n.
Proof.
  induction n as [|n IH]; intros h vs h' E; simpl in E.
  - by inversion E.
  - destruct (s h) as [[v|e] h1]; [|discriminate].
    destruct (produce n s h1) as [[vs'|e] h2] eqn:Ep; [|discriminate].
    inversion E; subst. simpl. f_equal. by apply (IH h1 vs' h').
Qed.

(** Within the longest array, the length asked for is the length used. *)
Lemma Array_from_within n (f : M W (completion json)) :
  n <= max_array_length ->
  Array_from (Some n) f = replicateM (Z.to_nat n) f.
Proof.
  unfold Array_from, ToLength, max_array_length. intros Hn.
  destruct (Z.ltb_spec 4294967295 (Z.min (Z.max n 0) 9007199254740991));
    [lia|].
  f_equal. lia.
Qed.

(** Above it, allocating the array throws and [f] is never called. *)
Lemma Array_from_beyond n (f : M W (completion json)) w :
  max_array_length < n ->
  Array_from (Some n) f w = (Throw RangeError, w).
Proof.
  unfold Array_from, ToLength, max_array_length. intros Hn.
  destruct (Z.ltb_spec 4294967295 (Z.min (Z.max n 0) 9007199254740991));
    [reflexivity|lia].
Qed.

(** The GET handler with a truthy [maxResults] within the longest array,
    when every invocation returns. *)
Lemma GETHandler_many s n delay d req res w v0 h0 vs h1 :
  n <> 0 ->
  n <= max_array_length ->
  s (heap w) = (Return v0, h0) ->
  produce (Z.to_nat n) s h0 = (Return vs, h1) ->
  GETHandler s (Some n) delay d req res w
  = (SendResponseWithDelay d res (JArr vs) delay,
     {| heap := h1; invoked := invoked w ++ v0 :: vs |}).
Proof.
  intros Hn Hmax Es Ep. unfold GETHandler.
  unfold bind at 1. unfold bindT at 1, bind at 1.
  rewrite (invoke_eq _ _ _ _ Es).
  assert (truthy_opt (Some n) = true) as -> by by apply truthy_opt_Some.
  unfold bindT at 1, bind at 1. unfold bindT at 1, bind at 1.
  rewrite (Array_from_within n _ Hmax).
  rewrite (replicateM_invoke _ _ {| heap := h0; invoked := invoked w ++ [v0] |}
             vs h1 Ep).
  unfold ret. simpl. rewrite <- app_assoc. reflexivity.
Qed.

(** The GET handler without a truthy [maxResults], when the invocation
    returns. *)
Lemma GETHandler_one s maxResults delay d req res w v h :
  truthy_opt maxResults = false ->
  s (heap w) = (Return v, h) ->
  GETHandler s maxResults delay d req res w
  = (SendResponseWithDelay d res v delay,
     {| heap := h; invoked := invoked w ++ [v] |}).
Proof.
  intros Hm Es. unfold GETHandler.
  unfold bind at 1. unfold bindT at 1, bind at 1.
  rewrite (invoke_eq _ _ _ _ Es). rewrite Hm.
  reflexivity.
Qed.

Lemma plainHandler_one s delay d req res w v h :
  s (heap w) = (Return v, h) ->
  plainHandler s delay d req res w
  = (SendResponseWithDelay d res v delay,
     {| heap := h; invoked := invoked w ++ [v] |}).
Proof.
  intros Es. unfold plainHandler.
  unfold bind at 1. unfold bindT at 1, bind at 1.
  rewrite (invoke_eq _ _ _ _ Es). reflexivity.
Qed.

(** When the first invocation throws, the exception leaves the handler. *)
Lemma GETHandler_throws s maxResults delay d req res w e h :
  s (heap w) = (Throw e, h) ->
  GETHandler s maxResults delay d req res w
  = (Threw e, {| heap := h; invoked := invoked w |}).
Proof.
  intros Es. unfold GETHandler.
  unfold bind at 1. unfold bindT at 1, bind at 1.
  rewrite (invoke_throws _ _ _ _ Es). reflexivity.
Qed.

Lemma plainHandler_throws s delay d req res w e h :
  s (heap w) = (Throw e, h) ->
  plainHandler s delay d req res w
  = (Threw e, {| heap := h; invoked := invoked w |}).
Proof.
  intros Es. unfold plainHandler.
  unfold bind at 1. unfold bindT at 1, bind at 1.
  rewrite (invoke_throws _ _ _ _ Es). reflexivity.
Qed.

(** A [maxResults] above the longest array: the first invocation is made,
    then allocating the array throws. *)
Lemma GETHandler_beyond s n delay d req res w v0 h0 :
  max_array_length < n ->
  s (heap w) = (Return v0, h0) ->
  GETHandler s (Some n) delay d req res w
  = (Threw RangeError, {| heap := h0; invoked := invoked w ++ [v0] |}).
Proof.
  intros Hn Es. unfold GETHandler.
  unfold bind at 1. unfold bindT at 1, bind at 1.
  rewrite (invoke_eq _ _ _ _ Es).
  assert (truthy_opt (Some n) = true) as ->.
  { apply truthy_opt_Some. unfold max_array_length in Hn. lia. }
  unfold bindT at 1, bind at 1. unfold bindT at 1, bind at 1.
  rewrite (Array_from_beyond n _ _ Hn). reflexivity.
Qed.

(** What a handler of the class does depends on the server delay, the
    request and the response object only through the way the answer is
    sent: there is an evaluation of the answer, the same for all of them,
    and the handler sends its value or lets its exception out. *)
Lemma GETHandler_shape s maxResults delay w :
  exists (r : completion json) w',
    forall d req res,
      GETHandler s maxResults delay d req res w
      = (match r with
         | Return v => SendResponseWithDelay d res v delay
         | Throw e => Threw e
         end, w').
Proof.
  unfold GETHandler, bind, bindT, bind.
  destruct (invoke s w) as [[v0|e] w1]; [|by exists (Throw e), w1].
  destruct (truthy_opt maxResults).
  - destruct (Array_from maxResults (invoke s) w1) as [[items|e] w2].
    + by exists (Return (JArr items)), w2.
    + by exists (Throw e), w2.
  - by exists (Return v0), w1.
Qed.

Lemma plainHandler_shape s delay w :
  exists (r : completion json) w',
    forall d req res,
      plainHandler s delay d req res w
      = (match r with
         | Return v => SendResponseWithDelay d res v delay
         | Throw e => Threw e
         end, w').
Proof.
  unfold plainHandler, bind, bindT, bind.
  destruct (invoke s w) as [[v0|e] w1];
    [by exists (Return v0), w1|by exists (Throw e), w1].
Qed.

End Responses.

(** ** Walking the router stack *)

Section Dispatch.

Context {W : Type}.
Context (path_match : string -> string -> bool).
Implicit Types (s : Schema W) (w : world W) (req : Request).
Implicit Types (stack pre post : list (layer W)) (this : MockServer W).

(** A request the front part of the stack leaves unanswered goes on to the
    back part; an answer of the front part is final. *)
Lemma dispatch_app pre post d req w :
  dispatch path_match (pre ++ post) d req w
  = let (o, w') := dispatch path_match pre d req w in
    match o with
    | Next => dispatch path_match post d req w'
    | _ => (o, w')
    end.
Proof.
  revert w. induction pre as [|l pre IH]; intros w; simpl.
  - reflexivity.
  - destruct l as [mw|m path h].
    + destruct (mw req fresh_res); try reflexivity. apply IH.
    + destruct (bool_decide (m = req_method req)
                && path_match path (req_path req)); [|apply IH].
      unfold bind. destruct (h d req fresh_res w) as [o w1].
      destruct o; try reflexivity. apply IH.
Qed.

Lemma dispatch_route m path (h : Handler W) d req w :
  m = req_method req ->
  path_match path (req_path req) = true ->
  dispatch path_match [LRoute m path h] d req w = h d req fresh_res w.
Proof.
  intros -> Hp. simpl. rewrite bool_decide_true by reflexivity.
  rewrite Hp. simpl. unfold bind.
  destruct (h d req fresh_res w) as [o w1].
  destruct o; reflexivity.
Qed.

End Dispatch.

(** ** What one request does to the schema producer *)

Section Invocations.

Context {W : Type}.
Context (path_match : string -> string -> bool).
Implicit Types (s : Schema W) (w : world W) (req : Request) (res : Res).
Implicit Types (this : MockServer W).

(** C1 (evaluated at the diverging input): on a server configured with
    [SetDelay(500)], a GET route bound without a delay of its own answers
    through a timer, and the delay handed to the timer is the missing
    route-level one ([undefined]), not the 500 ms of [SetDelay]. *)
Theorem server_delay_not_handed_to_timer :
  let srv := BindNewGETRoute "/users" next_id None None
               (SetDelay 500 (CreateNewServer None)) in
  handle_request literal_match srv (mkRequest GET "/users" ∅) start_world
  = (Timer None (mkResponse 200 "application/json" (JNum 0)),
     {| heap := 1%nat; invoked := [JNum 0] |}).
Proof. reflexivity. Qed.

(** C2 (as stated, refuted): with [maxResults = 2] the handler invokes the
    producer three times, not twice; the two values returned are those of
    the second and the third invocation. *)
Lemma maxResults_two_invokes_thrice :
  let run := GETHandler next_id (Some 2) None 0
               (mkRequest GET "/users" ∅) fresh_res start_world in
  run.1 = Sent (mkResponse 200 "application/json" (JArr [JNum 1; JNum 2]))
  /\ invoked run.2 = [JNum 0; JNum 1; JNum 2]
  /\ length (invoked run.2) <> 2%nat.
Proof.
  cbv zeta. split; [reflexivity|]. split; [reflexivity|].
  vm_compute. discriminate.
Qed.

(** C2 (amended): a GET handler bound with [maxResults = N], [N] positive
    and no more than the longest array ([2^32 - 1]), whose producer returns
    at every invocation, invokes the producer [N + 1] times per request:
    once first, a value it drops, and then [N] times in a row; it answers
    with the [N] values of the latter invocations, in invocation order. *)
Theorem GET_maxResults_invocations
    s N delay d req res w v0 h0 vs h1 :
  0 < N <= max_array_length ->
  s (heap w) = (Return v0, h0) ->
  produce (Z.to_nat N) s h0 = (Return vs, h1) ->
  let run := GETHandler s (Some N) delay d req res w in
  emitted run.1 = Some (mkResponse 200 "application/json" (JArr vs))
  /\ invoked run.2 = invoked w ++ v0 :: vs
  /\ heap run.2 = h1
  /\ Z.of_nat (length vs) = N
  /\ Z.of_nat (length (invoked run.2))
     = Z.of_nat (length (invoked w)) + N + 1.
Proof.
  intros HN Es Ep run. subst run.
  rewrite (GETHandler_many s N delay d req res w v0 h0 vs h1)
    by (lia || done).
  simpl. rewrite SendResponseWithDelay_emits.
  assert (Z.of_nat (length vs) = N) as Hlen.
  { rewrite (produce_length _ _ _ _ _ Ep). lia. }
  repeat split; try done.
  rewrite length_app. simpl. lia.
Qed.

(** C3: a GET route bound without [maxResults], and a POST, PUT, DELETE or
    PATCH route, invokes the producer once for the request it handles, on
    the heap as it is when the request arrives, and answers with the value
    of that invocation. *)
Theorem single_value_routes_invoke_once
    (m : Method) route s delay this req w v h :
  handle_request path_match this req w = (Next, w) ->
  req_method req = m ->
  path_match route (req_path req) = true ->
  s (heap w) = (Return v, h) ->
  let run := handle_request path_match
               (bind_route m route s delay this) req w in
  emitted run.1 = Some (mkResponse 200 "application/json" v)
  /\ run.2 = {| heap := h; invoked := invoked w ++ [v] |}.
Proof.
  intros Hpre Hm Hp Es run. subst run.
  assert (forall (hd : Handler W),
    hd (_delay this) req fresh_res w
      = (SendResponseWithDelay (_delay this) fresh_res v delay,
         {| heap := h; invoked := invoked w ++ [v] |}) ->
    let run := dispatch path_match (router this ++ [LRoute m route hd])
                 (_delay this) req w in
    emitted run.1 = Some (mkResponse 200 "application/json" v)
    /\ run.2 = {| heap := h; invoked := invoked w ++ [v] |}) as Hgen.
  { intros hd Hhd. cbv zeta. rewrite dispatch_app.
    unfold handle_request in Hpre. rewrite Hpre.
    rewrite dispatch_route by done.
    rewrite Hhd. simpl. by rewrite SendResponseWithDelay_emits. }
  unfold handle_request.
  destruct m; simpl; apply Hgen;
    first [ by apply GETHandler_one | by apply plainHandler_one ].
Qed.

(** C8 (as stated, refuted): with [maxResults = 2^32] the array cannot be
    allocated: after the first invocation a [RangeError] leaves the
    handler, which answers with no array at all. *)
Lemma maxResults_beyond_longest_array :
  let run := GETHandler next_id (Some 4294967296) None 0
               (mkRequest GET "/users" ∅) fresh_res start_world in
  run = (Threw RangeError, {| heap := 1%nat; invoked := [JNum 0] |})
  /\ emitted run.1 = None.
Proof. cbv zeta. split; vm_compute; reflexivity. Qed.

(** C8 (amended): a GET handler bound with [maxResults = N], [N] positive
    and no more than the longest array ([2^32 - 1]), whose producer returns
    at every invocation, answers every request with a JSON array of exactly
    [N] items. *)
Theorem GET_maxResults_length s N delay d req res w v0 h0 vs h1 :
  0 < N <= max_array_length ->
  s (heap w) = (Return v0, h0) ->
  produce (Z.to_nat N) s h0 = (Return vs, h1) ->
  emitted (GETHandler s (Some N) delay d req res w).1
  = Some (mkResponse 200 "application/json" (JArr vs))
  /\ Z.of_nat (length vs) = N.
Proof.
  intros HN Es Ep.
  rewrite (GETHandler_many s N delay d req res w v0 h0 vs h1)
    by (lia || done).
  simpl. rewrite SendResponseWithDelay_emits. split; [done|].
  rewrite (produce_length _ _ _ _ _ Ep). lia.
Qed.

End Invocations.

(** ** Joining clean paths *)

Section Paths.

Implicit Types (p u v seg : string) (segs ps qs pieces : list string).

Notation "'no_slash' p" := (~ In "/"%char (list_ascii_of_string p))
  (at level 10, p at level 9).
Notation "'no_backslash' p" := (~ In "\"%char (list_ascii_of_string p))
  (at level 10, p at level 9).

Lemma append_cons c p u : String c p +:+ u = String c (p +:+ u).
Proof. reflexivity. Qed.

Lemma append_empty u : "" +:+ u = u.
Proof. reflexivity. Qed.

Lemma append_nil_r p : p +:+ "" = p.
Proof.
  induction p as [|c p IH]; [done|]. rewrite append_cons. by f_equal.
Qed.

Lemma append_assoc p u v : (p +:+ u) +:+ v = p +:+ (u +:+ v).
Proof.
  induction p as [|c p IH]; [done|]. rewrite !append_cons. by f_equal.
Qed.

Lemma chars_append p u :
  list_ascii_of_string (p +:+ u)
  = list_ascii_of_string p ++ list_ascii_of_string u.
Proof.
  induction p as [|c p IH]; [done|]. rewrite append_cons. simpl.
  by f_equal.
Qed.

Lemma slash_path_cons seg segs :
  slash_path (seg :: segs) = String "/" (seg +:+ slash_path segs).
Proof. reflexivity. Qed.

Lemma replace_backslashes_chars (t : string) :
  list_ascii_of_string (replace_backslashes t)
  = map (fun c => if Ascii.eqb c "\"%char then "/"%char else c)
        (list_ascii_of_string t).
Proof. induction t as [|c t IH]; simpl; [done|]. by rewrite IH. Qed.

Lemma replace_backslashes_clean (t : string) :
  no_backslash (replace_backslashes t).
Proof.
  induction t as [|c t IH]; simpl; [tauto|].
  intros [H|H]; [|by apply IH].
  destruct (Ascii.eqb_spec c "\"%char) as [->|Hc]; [discriminate H|].
  by apply Hc.
Qed.

Lemma replace_backslashes_length (t : string) :
  String.length (replace_backslashes t) = String.length t.
Proof. induction t as [|c t IH]; simpl; [done|]. by rewrite IH. Qed.

Lemma replace_backslashes_id (t : string) :
  no_backslash t -> replace_backslashes t = t.
Proof.
  induction t as [|c t IH]; simpl; intros H; [done|].
  destruct (Ascii.eqb_spec c "\"%char) as [->|Hc]; [tauto|].
  rewrite IH; [done|tauto].
Qed.

(** A piece without a slash, then a slash: the piece is split off. *)
Lemma split_piece_slash p u :
  no_slash p -> split_slash (p +:+ String "/" u) = p :: split_slash u.
Proof.
  induction p as [|c p IH]; intros H; [done|].
  rewrite append_cons. simpl. simpl in H.
  destruct (Ascii.eqb_spec c "/"%char) as [->|_]; [tauto|].
  rewrite IH by tauto. reflexivity.
Qed.

Lemma split_piece_end p : no_slash p -> split_slash p = [p].
Proof.
  induction p as [|c p IH]; simpl; intros H; [done|].
  destruct (Ascii.eqb_spec c "/"%char) as [->|_]; [tauto|].
  rewrite IH by tauto. reflexivity.
Qed.

Lemma split_piece_path p segs :
  no_slash p -> Forall clean_segment segs ->
  split_slash (p +:+ slash_path segs) = p :: segs.
Proof.
  intros Hp Hsegs. revert p Hp.
  induction Hsegs as [|seg segs Hseg _ IH]; intros p Hp.
  - change (slash_path []) with "". rewrite append_nil_r.
    by apply split_piece_end.
  - rewrite slash_path_cons, split_piece_slash by done.
    rewrite IH; [done|]. apply Hseg.
Qed.

Lemma split_path_slash p segs u :
  no_slash p -> Forall clean_segment segs ->
  split_slash (p +:+ (slash_path segs +:+ String "/" u))
  = p :: segs ++ split_slash u.
Proof.
  intros Hp Hsegs. revert p Hp.
  induction Hsegs as [|seg segs Hseg _ IH]; intros p Hp.
  - change (slash_path []) with "". rewrite append_empty.
    by apply split_piece_slash.
  - rewrite slash_path_cons, append_cons, split_piece_slash by done.
    rewrite append_assoc, IH; [done|]. apply Hseg.
Qed.

Lemma resolve_clean allow segs : forall kept pieces,
  Forall clean_segment segs ->
  resolve_pieces allow kept (segs ++ pieces)
  = resolve_pieces allow (rev segs ++ kept) pieces.
Proof.
  induction segs as [|seg segs IH]; intros kept pieces Hsegs; simpl;
    [done|].
  apply Forall_cons in Hsegs as [(H0 & H1 & H2 & _) Hsegs].
  rewrite (proj2 (String.eqb_neq seg "") H0).
  rewrite (proj2 (String.eqb_neq seg ".") H1).
  rewrite (proj2 (String.eqb_neq seg "..") H2). simpl.
  rewrite IH by done. by rewrite <- app_assoc.
Qed.

Lemma concat_cons2 seg seg' segs :
  String.concat "/" (seg :: seg' :: segs)
  = seg +:+ String "/" (String.concat "/" (seg' :: segs)).
Proof. reflexivity. Qed.

Lemma concat_slash_path segs :
  segs <> [] -> String "/" (String.concat "/" segs) = slash_path segs.
Proof.
  induction segs as [|seg segs IH]; intros H; [done|].
  destruct segs as [|seg' segs].
  - rewrite slash_path_cons. change (slash_path []) with "".
    by rewrite append_nil_r.
  - rewrite concat_cons2, IH by done. by rewrite slash_path_cons.
Qed.

Lemma concat_not_empty seg segs :
  seg <> "" -> String.concat "/" (seg :: segs) <> "".
Proof.
  intros H. destruct seg as [|c seg]; [done|].
  destruct segs; [discriminate|].
  rewrite concat_cons2, append_cons. discriminate.
Qed.

Lemma slash_path_app ps qs :
  slash_path (ps ++ qs) = slash_path ps +:+ slash_path qs.
Proof.
  induction ps as [|p ps IH]; [done|].
  rewrite <- app_comm_cons, !slash_path_cons, IH, append_cons.
  by rewrite append_assoc.
Qed.

Lemma ends_with_slash_append u v :
  v <> "" -> ends_with_slash (u +:+ v) = ends_with_slash v.
Proof.
  intros Hv. induction u as [|c u IH]; [done|].
  rewrite append_cons.
  destruct (u +:+ v) as [|c' t] eqn:E.
  - destruct u; [rewrite append_empty in E; contradiction|].
    rewrite append_cons in E. discriminate.
  - exact IH.
Qed.

Lemma ends_with_slash_piece p : no_slash p -> ends_with_slash p = false.
Proof.
  induction p as [|c p IH]; intros H; [done|].
  simpl in H. destruct p as [|c' p].
  - simpl. destruct (Ascii.eqb_spec c "/"%char) as [->|_]; [tauto|done].
  - apply IH. tauto.
Qed.

Lemma slash_path_not_empty seg segs : slash_path (seg :: segs) <> "".
Proof. rewrite slash_path_cons. discriminate. Qed.

Lemma ends_with_slash_path segs :
  segs <> [] -> Forall clean_segment segs ->
  ends_with_slash (slash_path segs) = false.
Proof.
  intros Hne Hsegs. induction Hsegs as [|seg segs Hseg Hsegs IH]; [done|].
  destruct Hseg as (H0 & _ & _ & Hs & _).
  destruct segs as [|seg' segs].
  - rewrite slash_path_cons. change (slash_path []) with "".
    rewrite append_nil_r. rewrite <- (append_empty seg), <- append_cons.
    rewrite ends_with_slash_append by done.
    by apply ends_with_slash_piece.
  - rewrite slash_path_cons, <- append_cons.
    rewrite ends_with_slash_append by apply slash_path_not_empty.
    by apply IH.
Qed.

Lemma slash_path_no_backslash segs :
  Forall clean_segment segs -> no_backslash (slash_path segs).
Proof.
  induction 1 as [|seg segs Hseg _ IH]; [simpl; tauto|].
  destruct Hseg as (_ & _ & _ & _ & Hb).
  rewrite slash_path_cons. simpl. rewrite chars_append, in_app_iff.
  intros [H|[H|H]]; [discriminate H|tauto|tauto].
Qed.

(** Pieces that need no resolving come out of the normal form as they went
    in. *)
Lemma posix_normalize_clean pieces segs path :
  segs <> [] ->
  Forall clean_segment segs ->
  Forall clean_segment pieces ->
  path <> "" ->
  starts_with_slash path = true ->
  ends_with_slash path = false ->
  split_slash path = "" :: pieces ++ "" :: segs
  \/ (pieces = [] /\ split_slash path = "" :: segs) ->
  posix_normalize path = slash_path (pieces ++ segs).
Proof.
  intros Hne Hsegs Hpieces Hpath Habs Htrail Hsplit.
  unfold posix_normalize.
  rewrite (proj2 (String.eqb_neq path "") Hpath), Habs, Htrail.
  cbv zeta. cbn [negb].
  assert (resolve_pieces false [] (split_slash path) = pieces ++ segs)
    as ->.
  { destruct Hsplit as [-> | [-> ->]]; cbn [resolve_pieces String.eqb orb].
    - rewrite (resolve_clean false pieces [] ("" :: segs)) by done.
      cbn [resolve_pieces String.eqb orb].
      rewrite <- (app_nil_r segs) at 1.
      rewrite (resolve_clean false segs _ []) by done.
      cbn [resolve_pieces].
      by rewrite rev_app_distr, rev_app_distr, !rev_involutive.
    - rewrite <- (app_nil_r segs) at 1.
      rewrite (resolve_clean false segs _ []) by done.
      cbn [resolve_pieces].
      by rewrite app_nil_r, rev_involutive. }
  assert (Forall clean_segment (pieces ++ segs)) as Hall
    by by apply Forall_app.
  destruct (pieces ++ segs) as [|seg0 rest] eqn:E.
  { destruct pieces, segs; done. }
  apply Forall_cons in Hall as [(H0 & _) _].
  rewrite (proj2 (String.eqb_neq _ "") (concat_not_empty seg0 rest H0)).
  rewrite append_nil_r.
  change ("/" +:+ String.concat "/" (seg0 :: rest))
    with (String "/" (String.concat "/" (seg0 :: rest))).
  by rewrite concat_slash_path.
Qed.

(** Joining a clean prefix (possibly empty) with a clean pattern puts the
    pattern after the prefix. *)
Lemma joinPath_clean prefix pattern :
  clean_prefix prefix -> clean_pattern pattern ->
  joinPath posix_join [prefix; pattern] = prefix +:+ pattern.
Proof.
  intros (ps & Hps & ->) (qs & Hne & Hqs & ->).
  unfold joinPath.
  assert (no_backslash (slash_path ps +:+ slash_path qs)) as Hclean.
  { rewrite <- slash_path_app. apply slash_path_no_backslash.
    by apply Forall_app. }
  destruct qs as [|q qs]; [done|].
  assert (posix_join [slash_path ps; slash_path (q :: qs)]
          = slash_path ps +:+ slash_path (q :: qs)) as ->;
    [|by apply replace_backslashes_id].
  unfold posix_join. rewrite !filter_cons, filter_nil.
  rewrite (decide_True (P := slash_path (q :: qs) <> ""))
    by apply slash_path_not_empty.
  destruct ps as [|p ps].
  - rewrite decide_False by (intros H; by apply H).
    change (String.concat "/" [slash_path (q :: qs)])
      with (slash_path (q :: qs)).
    change (slash_path [] +:+ slash_path (q :: qs))
      with (slash_path ([] ++ q :: qs)).
    apply posix_normalize_clean.
    + done.
    + done.
    + done.
    + apply slash_path_not_empty.
    + by rewrite slash_path_cons.
    + by apply ends_with_slash_path.
    + right. split; [done|].
      apply (split_piece_path "" (q :: qs)); [simpl; tauto|done].
  - rewrite decide_True by apply slash_path_not_empty.
    rewrite <- slash_path_app.
    change (String.concat "/" [slash_path (p :: ps); slash_path (q :: qs)])
      with (slash_path (p :: ps) +:+ String "/" (slash_path (q :: qs))).
    apply posix_normalize_clean.
    + done.
    + done.
    + done.
    + rewrite slash_path_cons, append_cons. discriminate.
    + by rewrite slash_path_cons, append_cons.
    + rewrite <- (append_empty (slash_path (q :: qs))), <- append_cons.
      rewrite <- append_assoc.
      rewrite ends_with_slash_append by apply slash_path_not_empty.
      by apply ends_with_slash_path.
    + left.
      rewrite <- (append_empty (slash_path (p :: ps) +:+ _)).
      rewrite (split_path_slash "" (p :: ps)); [|simpl; tauto|done].
      f_equal. f_equal.
      apply (split_piece_path "" (q :: qs)); [simpl; tauto|done].
Qed.

End Paths.

(** ** Builder chains *)

Section Chains.

Context {W : Type}.
Context (path_join : list string -> string).
Implicit Types (s : Schema W) (w : world W) (req : Request) (res : Res).
Implicit Types (this : MockServer W) (c : call W) (cs : list (call W)).

Lemma router_apply_call c this :
  router (apply_call c this) = router this ++ layers_of c.
Proof.
  destruct c; simpl;
    rewrite ?app_nil_r; repeat rewrite <- app_assoc; reflexivity.
Qed.

Lemma router_chain cs : forall this,
  router (chain cs this) = router this ++ flat_map layers_of cs.
Proof.
  unfold chain. induction cs as [|c cs IH]; intros this; simpl.
  - by rewrite app_nil_r.
  - rewrite IH, router_apply_call. by rewrite <- app_assoc.
Qed.

Lemma server_chain cs : forall this, server (chain cs this) = server this.
Proof.
  unfold chain. induction cs as [|c cs IH]; intros this; simpl; [done|].
  rewrite IH. by destruct c.
Qed.

Lemma serverName_chain cs : forall this,
  serverName (chain cs this) = serverName this.
Proof.
  unfold chain. induction cs as [|c cs IH]; intros this; simpl; [done|].
  rewrite IH. by destruct c.
Qed.

Lemma routePrefix_chain cs : forall this,
  _routePrefix (chain cs this) = prefix_after cs (_routePrefix this).
Proof.
  unfold chain. induction cs as [|c cs IH]; intros this; simpl; [done|].
  rewrite IH. by destruct c.
Qed.

(** A handler of the class evaluates an answer, the same whatever the
    server delay, the request and the response object are, and sends its
    value or lets its exception out. *)
Lemma class_handler_shape (h : Handler W) w :
  class_handler h ->
  exists delay (r : completion json) w',
    forall d req res,
      h d req res w
      = (match r with
         | Return v => SendResponseWithDelay d res v delay
         | Throw e => Threw e
         end, w').
Proof.
  intros [(s & mr & dl & ->)|(s & dl & ->)].
  - destruct (GETHandler_shape s mr dl w) as (r & w' & H). eauto.
  - destruct (plainHandler_shape s dl w) as (r & w' & H). eauto.
Qed.

(** Every route layer a call installs carries one of the two handler
    closures of the class. *)
Lemma layers_of_route c m path (h : Handler W) :
  In (LRoute m path h) (layers_of c) -> class_handler h.
Proof.
  unfold class_handler. destruct c; simpl; intros H;
    repeat match goal with
    | H : _ \/ _ |- _ => destruct H as [H|H]
    | H : False |- _ => destruct H
    | H : LRoute _ _ _ = LRoute _ _ _ |- _ => inversion H; subst; clear H
    | H : LUse _ = LRoute _ _ _ |- _ => discriminate H
    end; eauto.
Qed.

(** C6: [BindCrudRoutes(m, s, maxResults, delay)] appends five route layers
    to the router stack and changes nothing else: GET [/m] with the list
    handler of [s] and [maxResults], then POST [/m/create], PUT [/m/update],
    DELETE [/m/delete] and PATCH [/m/patch-update] with the single-value
    handler of the same [s]. *)
Theorem BindCrudRoutes_registers moduleName s maxResults delay this :
  let this' := BindCrudRoutes moduleName s maxResults delay this in
  router this'
  = router this
    ++ [LRoute GET ("/" +:+ moduleName) (GETHandler s maxResults delay);
        LRoute POST ("/" +:+ moduleName +:+ "/create") (plainHandler s delay);
        LRoute PUT ("/" +:+ moduleName +:+ "/update") (plainHandler s delay);
        LRoute DELETE ("/" +:+ moduleName +:+ "/delete")
               (plainHandler s delay);
        LRoute PATCH ("/" +:+ moduleName +:+ "/patch-update")
               (plainHandler s delay)]
  /\ length (router this') = (length (router this) + 5)%nat
  /\ server this' = server this
  /\ serverName this' = serverName this
  /\ _routePrefix this' = _routePrefix this
  /\ _delay this' = _delay this.
Proof.
  cbv zeta. unfold BindCrudRoutes. simpl.
  repeat rewrite <- app_assoc. simpl.
  repeat split. rewrite length_app. reflexivity.
Qed.

(** C7: a handler registered by a chain of builder calls never writes
    anything but a response of status 200 with the JSON content type,
    whatever the producer, the binding arguments, the server delay and the
    state of the response object.  It writes one for every request, unless
    an exception (thrown by the producer, or by the allocation of too long
    an array) leaves it; then it writes nothing at all. *)
Theorem bound_handlers_answer_200
    name cs m path (h : Handler W) d req res w :
  LRoute m path h ∈ router (chain cs (CreateNewServer name)) ->
  (forall r, emitted (h d req res w).1 = Some r ->
             statusCode r = 200 /\ contentType r = "application/json")
  /\ ((exists v, emitted (h d req res w).1
                 = Some (mkResponse 200 "application/json" v))
      \/ (exists e, (h d req res w).1 = Threw e)).
Proof.
  rewrite router_chain. simpl. rewrite list_elem_of_In.
  intros Hin. apply in_flat_map in Hin as (c & _ & Hc).
  apply layers_of_route in Hc.
  destruct (class_handler_shape h w Hc) as (dl & r & w' & ->).
  destruct r as [v|e]; simpl.
  - rewrite SendResponseWithDelay_emits. split; [|left; eauto].
    intros r Hr. by inversion Hr.
  - split; [discriminate|right; eauto].
Qed.

Lemma padEnd_method m :
  padEnd 6 " " (toUpperCase (method_name m)) = METHOD6 m.
Proof. destruct m; reflexivity. Qed.

Lemma route_lines prefix (stack : list (layer W)) :
  flat_map (fun handler =>
    match handler with
    | LRoute m path _ =>
        let method := toUpperCase (method_name m) in
        [Log (padEnd 6 " " method +:+ " -  "
              +:+ joinPath path_join [prefix; path])]
    | LUse _ => []
    end) stack
  = map (fun b => Log (METHOD6 b.1 +:+ " -  "
                       +:+ joinPath path_join [prefix; b.2]))
        (bindings stack).
Proof.
  induction stack as [|l stack IH]; simpl; [done|].
  destruct l as [mw|m path h]; simpl; [exact IH|].
  rewrite padEnd_method. f_equal. exact IH.
Qed.

(** The log of the listening callback after one [Start], for any
    [path.join]. *)
Lemma on_listening_after_Start name cs port :
  let built := chain cs (CreateNewServer name) in
  on_listening path_join port (Start port built)
  = [Log (serverName built +:+ " running at http://localhost:"
          +:+ pretty (default 3005 port));
     Group ("Registered Routes By " +:+ serverName built +:+ ":")]
    ++ map (fun b => Log (METHOD6 b.1 +:+ " -  "
                          +:+ joinPath path_join [prefix_after cs ""; b.2]))
           (registered cs)
    ++ [Log ""; GroupEnd].
Proof.
  cbv zeta. unfold on_listening, logRoutes, Start. simpl.
  rewrite server_chain. simpl. rewrite app_nil_r.
  rewrite route_lines, router_chain, routePrefix_chain. simpl.
  reflexivity.
Qed.

(** C10: a server created without a name, or with the empty string as its
    name, is called ["Mock Server"]; any other name is kept as it is. *)
Theorem CreateNewServer_name :
  serverName (CreateNewServer (W:=W) None) = "Mock Server"
  /\ serverName (CreateNewServer (W:=W) (Some "")) = "Mock Server"
  /\ forall name, name <> "" ->
       serverName (CreateNewServer (W:=W) (Some name)) = name.
Proof.
  split; [reflexivity|]. split; [reflexivity|].
  intros name Hname. simpl.
  destruct (String.eqb_spec name ""); [contradiction|reflexivity].
Qed.

End Chains.

(** ** The startup log *)

Section StartupLog.

Context {W : Type}.
Implicit Types (cs : list (call W)).

(** C9: the log written once [Start] has bound the listener, after a chain
    of builder calls, is the address line, the group header, one line per
    registered route binding in registration order, an empty line and the
    end of the group.  A route's line is the method in capitals filled to
    six characters, [" -  "], and the prefix joined with the pattern by
    [path.join], backslashes turned into slashes; for a prefix and
    patterns made of clean pieces ([/api] and [/test], say) that is the
    prefix followed by the pattern ([/api/test]). *)
Theorem startup_log name cs port :
  let built := chain cs (CreateNewServer name) in
  let prefix := prefix_after cs "" in
  let shown (full_path : string -> string) :=
    [Log (serverName built +:+ " running at http://localhost:"
          +:+ pretty (default 3005 port));
     Group ("Registered Routes By " +:+ serverName built +:+ ":")]
    ++ map (fun b => Log (METHOD6 b.1 +:+ " -  " +:+ full_path b.2))
           (registered cs)
    ++ [Log ""; GroupEnd] in
  on_listening posix_join port (Start port built)
  = shown (fun pattern =>
             replace_backslashes (posix_join [prefix; pattern]))
  /\ (clean_prefix prefix ->
      Forall (fun b => clean_pattern b.2) (registered cs) ->
      on_listening posix_join port (Start port built)
      = shown (fun pattern => prefix +:+ pattern)).
Proof.
  cbv zeta. rewrite on_listening_after_Start. split; [reflexivity|].
  intros Hprefix Hpatterns.
  rewrite (map_ext_in _
             (fun b => Log (METHOD6 b.1 +:+ " -  "
                            +:+ (prefix_after cs "" +:+ b.2))));
    [reflexivity|].
  intros b Hb. rewrite joinPath_clean; [done|done|].
  rewrite List.Forall_forall in Hpatterns. by apply Hpatterns.
Qed.

End StartupLog.

(** ** The authorization gate *)

Section Auth.

Context {W : Type}.
Context (path_match : string -> string -> bool).
Implicit Types (w : world W) (req : Request) (res : Res).
Implicit Types (this : MockServer W) (cs : list (call W)).
Implicit Types (stack : list (layer W)).

Lemma auth_gate_pass t key req res :
  authorized t key req -> auth_gate t key req res = Next.
Proof.
  intros [H|H]; unfold auth_gate; rewrite H.
  - rewrite (bool_decide_true (Some t = Some t)) by done.
    by rewrite orb_true_r.
  - by rewrite bool_decide_true.
Qed.

Lemma auth_gate_reject t key req res :
  ~ authorized t key req -> auth_gate t key req res = Sent unauthorized.
Proof.
  intros H. unfold auth_gate.
  rewrite !bool_decide_false; [reflexivity| |];
    intros E; apply H; [by left|by right].
Qed.

Lemma auth_gate_cases t key req res :
  auth_gate t key req res = Next
  \/ auth_gate t key req res = Sent unauthorized.
Proof.
  unfold auth_gate.
  destruct (bool_decide _ || bool_decide _); [by left|by right].
Qed.

Lemma dispatch_bystanders stack d req w :
  Forall (bystander path_match req) stack ->
  dispatch path_match stack d req w = (Next, w)
  \/ dispatch path_match stack d req w = (Sent unauthorized, w).
Proof.
  induction 1 as [|l stack Hl _ IH]; simpl; [by left|].
  destruct l as [mw|m path h]; simpl in Hl.
  - destruct Hl as (t & key & ->).
    destruct (auth_gate_cases t key req fresh_res) as [-> | ->];
      [exact IH|by right].
  - unfold takes in Hl. simpl in Hl. rewrite Hl. exact IH.
Qed.

Lemma layers_of_use (c : call W) (mw : Middleware) :
  In (LUse mw) (layers_of c) -> exists t key, mw = auth_gate t key.
Proof.
  destruct c; simpl; intros H;
    repeat match goal with
    | H : _ \/ _ |- _ => destruct H as [H|H]
    | H : False |- _ => destruct H
    | H : LUse _ = LUse _ |- _ => inversion H; subst; clear H
    | H : LRoute _ _ _ = LUse _ |- _ => discriminate H
    end; eauto.
Qed.

Lemma bindings_route stack m path (h : Handler W) :
  In (LRoute m path h) stack -> In (m, path) (bindings stack).
Proof.
  intros H. unfold bindings. apply in_flat_map.
  exists (LRoute m path h). split; [exact H|by left].
Qed.

Lemma layers_of_bystanders req cs :
  (forall b, b ∈ registered cs -> takes path_match req b = false) ->
  Forall (bystander path_match req) (flat_map layers_of cs).
Proof.
  intros Hcs. apply List.Forall_forall. intros l Hl.
  destruct l as [mw|m path h]; simpl.
  - apply in_flat_map in Hl as (c & _ & Hc). by apply layers_of_use in Hc.
  - apply Hcs. unfold registered. apply list_elem_of_In.
    by apply bindings_route with h.
Qed.

(** C4 (as stated, refuted): a route bound before [EnableAuth] is called
    sits in front of the gate.  A request without the header gets the
    route's answer, status 200, and the route's producer is invoked. *)
Lemma route_bound_before_gate_is_open :
  let srv := EnableAuth "secret" None
               (BindNewGETRoute "/users" next_id None None
                  (CreateNewServer None)) in
  let run := handle_request literal_match srv
               (mkRequest GET "/users" ∅) start_world in
  run = (Sent (mkResponse 200 "application/json" (JNum 0)),
         {| heap := 1%nat; invoked := [JNum 0] |})
  /\ run <> (Sent (mkResponse 401 "application/json"
                     (JObj [("message", JStr "Unauthorized")])),
             start_world).
Proof. cbv zeta. split; [reflexivity|]. vm_compute. discriminate. Qed.

(** C4 (amended): once [EnableAuth(token, headerKey)] has been called, a
    request that the application hands to the router (it has passed the
    body parser and its path lies under the prefix at which [Start] mounted
    the router), whose named header is missing, or is neither the token nor
    the token after ["Bearer "], and which no route bound before that call
    takes, is answered 401 with the body [{"message":"Unauthorized"}], and
    no schema producer is invoked: the heap and the trace of invocations
    are as they were. *)
Theorem unauthorized_request_stops_at_gate
    name before after t headerKey req w :
  let key := default "authorization" headerKey in
  let srv := chain after
               (EnableAuth t headerKey
                  (chain before (CreateNewServer name))) in
  ~ authorized t key req ->
  (forall b, b ∈ registered before -> takes path_match req b = false) ->
  handle_request path_match srv req w
  = (Sent (mkResponse 401 "application/json"
             (JObj [("message", JStr "Unauthorized")])),
     w).
Proof.
  intros key srv Hbad Hbefore. subst srv. unfold handle_request.
  rewrite router_chain. unfold EnableAuth, router_push. simpl.
  rewrite router_chain. simpl. fold key.
  generalize (_delay (chain after
    {| serverName := serverName (chain before (CreateNewServer name));
       server := server (chain before (CreateNewServer name));
       router := flat_map layers_of before ++ [LUse (auth_gate t key)];
       _routePrefix := _routePrefix (chain before (CreateNewServer name));
       _delay := _delay (chain before (CreateNewServer name)) |})).
  intros d. rewrite <- app_assoc, dispatch_app.
  destruct (dispatch_bystanders (flat_map layers_of before) d req w
              (layers_of_bystanders req before Hbefore)) as [-> | ->];
    [|reflexivity].
  simpl. by rewrite auth_gate_reject.
Qed.

(** C5: the gate [EnableAuth(token, headerKey)] appends to the router stack
    lets a request through to the layers behind it exactly when the value
    of the named header is, character for character, the token or the token
    after ["Bearer "]; every other request is answered 401 with the body
    [{ message: "Unauthorized" }] and goes no further. *)
Theorem auth_gate_decides t headerKey this stack d req w :
  let key := default "authorization" headerKey in
  let gate := auth_gate t key in
  router (EnableAuth t headerKey this) = router this ++ [LUse gate]
  /\ (gate req fresh_res = Next <-> authorized t key req)
  /\ (authorized t key req ->
      dispatch path_match (LUse gate :: stack) d req w
      = dispatch path_match stack d req w)
  /\ (~ authorized t key req ->
      dispatch path_match (LUse gate :: stack) d req w
      = (Sent (mkResponse 401 "application/json"
                 (JObj [("message", JStr "Unauthorized")])),
         w)).
Proof.
  intros key gate. subst gate. split; [reflexivity|]. split; [split|split].
  - intros Hn. destruct (decide (authorized t key req)) as [Ha|Ha]; [done|].
    rewrite (auth_gate_reject _ _ _ _ Ha) in Hn. discriminate.
  - apply auth_gate_pass.
  - intros Ha. simpl. by rewrite auth_gate_pass.
  - intros Ha. simpl. by rewrite auth_gate_reject.
Qed.

End Auth.

(** ** The earlier revision, for comparison *)

Section LegacyBinders.

Context {W : Type}.
Implicit Types (s : Schema W) (w : world W) (this : MockServer W).

(** There the producer runs while the route is bound ... *)
Lemma legacy_POST_invokes_while_binding route s this w v h :
  s (heap w) = (Return v, h) ->
  Legacy.BindNewPOSTRoute route s this w
  = (Return (router_push (LRoute POST route (Legacy.storedHandler v)) this),
     {| heap := h; invoked := invoked w ++ [v] |}).
Proof.
  intros Es. unfold Legacy.BindNewPOSTRoute, bindT, bind.
  by rewrite (invoke_eq _ _ _ _ Es).
Qed.

Lemma legacy_GET_invokes_while_binding route s this w v h :
  s (heap w) = (Return v, h) ->
  Legacy.BindNewGETRoute route s None this w
  = (Return (router_push (LRoute GET route (Legacy.storedHandler v)) this),
     {| heap := h; invoked := invoked w ++ [v] |}).
Proof.
  intros Es. unfold Legacy.BindNewGETRoute, bindT, bind.
  by rewrite (invoke_eq _ _ _ _ Es).
Qed.

(** ... and a request replays the stored value without running it. *)
Lemma legacy_handler_replays (v : json) d req res w :
  Legacy.storedHandler v d req res w
  = (Sent (mkResponse 200 "application/json" v), w).
Proof. reflexivity. Qed.

End LegacyBinders.

(** ** Worked instances *)

(** The comparison is by characters: ["bearer secret"] is not accepted for
    the token ["secret"]. *)
Lemma auth_gate_is_case_sensitive :
  auth_gate "secret" "authorization"
    (mkRequest GET "/users" {[ "authorization" := "bearer secret" ]})
    fresh_res
  = Sent unauthorized.
Proof. vm_compute. reflexivity. Qed.

(** A truthy route-level delay wins over the server default. *)
Lemma route_delay_overrides_server_delay :
  let srv := BindNewGETRoute "/users" next_id None (Some 50)
               (SetDelay 500 (CreateNewServer None)) in
  (handle_request literal_match srv sample_request start_world).1
  = Timer (Some 50) (mkResponse 200 "application/json" (JNum 0)).
Proof. reflexivity. Qed.

(** A producer that throws: the exception leaves the handler, on a list
    route and on a single-value route alike, and nothing is written. *)
Lemma throwing_producer_leaves_handler :
  GETHandler failing (Some 2) None 0 sample_request fresh_res start_world
  = (Threw (Raised (JStr "no data")), {| heap := 1%nat; invoked := [] |})
  /\ plainHandler failing None 0 sample_request fresh_res start_world
     = (Threw (Raised (JStr "no data")), {| heap := 1%nat; invoked := [] |}).
Proof. split; reflexivity. Qed.

(** Three results asked of the identifier producer: four invocations, the
    last three returned. *)
Lemma GET_maxResults_invocations_witness :
  0 < 3 <= max_array_length
  /\ let run := GETHandler next_id (Some 3) None 0
                  sample_request fresh_res start_world in
     emitted run.1
     = Some (mkResponse 200 "application/json"
               (JArr [JNum 1; JNum 2; JNum 3]))
     /\ invoked run.2 = [JNum 0; JNum 1; JNum 2; JNum 3]
     /\ heap run.2 = 4%nat
     /\ Z.of_nat (length [JNum 1; JNum 2; JNum 3]) = 3
     /\ Z.of_nat (length (invoked run.2)) = 0 + 3 + 1.
Proof.
  assert (0 < 3 <= max_array_length) as HN
    by (unfold max_array_length; lia).
  split; [exact HN|].
  exact (GET_maxResults_invocations next_id 3 None 0 sample_request
           fresh_res start_world (JNum 0) 1%nat
           [JNum 1; JNum 2; JNum 3] 4%nat
           HN eq_refl eq_refl).
Defined.

(** A POST route behind a gate, reached by a signed request. *)
Lemma single_value_routes_invoke_once_witness :
  let gated := EnableAuth "secret" None (CreateNewServer None) in
  handle_request literal_match gated signed_request start_world
  = (Next, start_world)
  /\ let run := handle_request literal_match
                  (bind_route POST "/users/create" next_id None gated)
                  signed_request start_world in
     emitted run.1 = Some (mkResponse 200 "application/json" (JNum 0))
     /\ run.2 = {| heap := 1%nat; invoked := [JNum 0] |}.
Proof.
  cbv zeta. split; [vm_compute; reflexivity|].
  exact (single_value_routes_invoke_once literal_match POST "/users/create"
           next_id None (EnableAuth "secret" None (CreateNewServer None))
           signed_request start_world (JNum 0) 1%nat
           ltac:(vm_compute; reflexivity) eq_refl eq_refl eq_refl).
Defined.

(** Two results asked, with a route-level delay of 50 ms. *)
Lemma GET_maxResults_length_witness :
  0 < 2 <= max_array_length
  /\ emitted (GETHandler next_id (Some 2) (Some 50) 0
                sample_request fresh_res start_world).1
     = Some (mkResponse 200 "application/json" (JArr [JNum 1; JNum 2]))
  /\ Z.of_nat (length [JNum 1; JNum 2]) = 2.
Proof.
  assert (0 < 2 <= max_array_length) as HN
    by (unfold max_array_length; lia).
  split; [exact HN|].
  exact (GET_maxResults_length next_id 2 (Some 50) 0
           sample_request fresh_res start_world (JNum 0) 1%nat
           [JNum 1; JNum 2] 3%nat HN eq_refl eq_refl).
Defined.

(** The DELETE handler of a CRUD module on a server with a default delay. *)
Lemma bound_handlers_answer_200_witness :
  let h := plainHandler next_id (Some 50) in
  LRoute DELETE "/users/delete" h
    ∈ router (chain [CSetDelay 20; CBindCrudRoutes "users" next_id None (Some 50)]
                (CreateNewServer (Some "Users API")))
  /\ (forall r,
        emitted (h 20 sample_request fresh_res start_world).1 = Some r ->
        statusCode r = 200 /\ contentType r = "application/json")
  /\ ((exists v, emitted (h 20 sample_request fresh_res start_world).1
                 = Some (mkResponse 200 "application/json" v))
      \/ (exists e, (h 20 sample_request fresh_res start_world).1 = Threw e)).
Proof.
  cbv zeta.
  assert (LRoute DELETE "/users/delete" (plainHandler next_id (Some 50))
            ∈ router (chain [CSetDelay 20;
                             CBindCrudRoutes "users" next_id None (Some 50)]
                        (CreateNewServer (Some "Users API")))) as Hin.
  { simpl. do 3 right. left. }
  split; [exact Hin|].
  exact (bound_handlers_answer_200 (Some "Users API") _ DELETE
           "/users/delete" _ 20 sample_request fresh_res start_world Hin).
Defined.

(** A named server keeps its name. *)
Lemma CreateNewServer_name_witness :
  "Users API" <> ""
  /\ serverName (CreateNewServer (W:=nat) (Some "Users API")) = "Users API".
Proof.
  split; [discriminate|].
  apply (proj2 (proj2 (CreateNewServer_name (W:=nat)))). discriminate.
Defined.

(** A gate installed between a login route and a list route: an unsigned
    request for the list is refused. *)
Lemma unauthorized_request_stops_at_gate_witness :
  let srv := chain [CBindNewGETRoute "/users" next_id (Some 2) None]
               (EnableAuth "secret" None
                  (chain [CBindNewPOSTRoute "/login" next_id None]
                     (CreateNewServer None))) in
  ~ authorized "secret" "authorization" sample_request
  /\ (forall b, b ∈ registered [CBindNewPOSTRoute "/login" next_id None] ->
        takes literal_match sample_request b = false)
  /\ handle_request literal_match srv sample_request start_world
     = (Sent (mkResponse 401 "application/json"
                (JObj [("message", JStr "Unauthorized")])),
        start_world).
Proof.
  cbv zeta.
  assert (~ authorized "secret" "authorization" sample_request) as Hbad.
  { intros [H|H]; vm_compute in H; discriminate H. }
  assert (forall b, b ∈ registered [CBindNewPOSTRoute "/login" next_id None] ->
            takes literal_match sample_request b = false) as Hbefore.
  { intros b Hb. apply list_elem_of_singleton in Hb. subst b. reflexivity. }
  split; [exact Hbad|]. split; [exact Hbefore|].
  exact (unauthorized_request_stops_at_gate literal_match None
           [CBindNewPOSTRoute "/login" next_id None]
           [CBindNewGETRoute "/users" next_id (Some 2) None]
           "secret" None sample_request start_world Hbad Hbefore).
Defined.

(** The gate lets the signed request through and refuses the unsigned one. *)
Lemma auth_gate_decides_witness :
  let stack := [LRoute POST "/users/create" (plainHandler next_id None)] in
  let gate := auth_gate "secret" "authorization" in
  authorized "secret" "authorization" signed_request
  /\ dispatch literal_match (LUse gate :: stack) 0 signed_request start_world
     = dispatch literal_match stack 0 signed_request start_world
  /\ ~ authorized "secret" "authorization" sample_request
  /\ dispatch literal_match (LUse gate :: stack) 0 sample_request start_world
     = (Sent (mkResponse 401 "application/json"
                (JObj [("message", JStr "Unauthorized")])),
        start_world).
Proof.
  cbv zeta.
  assert (authorized "secret" "authorization" signed_request) as Hok.
  { right. vm_compute. reflexivity. }
  assert (~ authorized "secret" "authorization" sample_request) as Hbad.
  { intros [H|H]; vm_compute in H; discriminate H. }
  split; [exact Hok|]. split.
  - exact (proj1 (proj2 (proj2
      (auth_gate_decides literal_match "secret" None (CreateNewServer None)
         [LRoute POST "/users/create" (plainHandler next_id None)]
         0 signed_request start_world))) Hok).
  - split; [exact Hbad|].
    exact (proj2 (proj2 (proj2
      (auth_gate_decides literal_match "secret" None (CreateNewServer None)
         [LRoute POST "/users/create" (plainHandler next_id None)]
         0 sample_request start_world))) Hbad).
Defined.

(** The prefix [/api] and the patterns [/test] and [/users/:id]. *)
Lemma startup_log_witness :
  let cs := [CSetRoutePrefix "/api";
             CBindNewGETRoute "/test" next_id None None;
             CBindNewDELETERoute "/users/:id" next_id None] in
  clean_prefix (prefix_after cs "")
  /\ Forall (fun b => clean_pattern b.2) (registered cs)
  /\ on_listening posix_join (Some 4000)
       (Start (Some 4000) (chain cs (CreateNewServer (Some "Users API"))))
     = [Log "Users API running at http://localhost:4000";
        Group "Registered Routes By Users API:";
        Log "GET    -  /api/test";
        Log "DELETE -  /api/users/:id";
        Log ""; GroupEnd].
Proof.
  cbv zeta.
  assert (forall seg, In seg ["api"; "test"; "users"; ":id"] ->
            clean_segment seg) as Hseg.
  { intros seg Hin. simpl in Hin.
    repeat (destruct Hin as [<-|Hin];
            [repeat split; (discriminate || (simpl; intuition discriminate))
            |]).
    destruct Hin. }
  assert (clean_prefix
            (prefix_after [CSetRoutePrefix "/api";
                           CBindNewGETRoute "/test" next_id None None;
                           CBindNewDELETERoute "/users/:id" next_id None]
                          "")) as Hprefix.
  { exists ["api"]. split; [|reflexivity].
    repeat constructor; apply Hseg; simpl; tauto. }
  assert (Forall (fun b => clean_pattern b.2)
            (registered [CSetRoutePrefix "/api";
                         CBindNewGETRoute "/test" next_id None None;
                         CBindNewDELETERoute "/users/:id" next_id None]))
    as Hpatterns.
  { repeat constructor.
    - exists ["test"]. split; [done|]. split; [|reflexivity].
      repeat constructor; apply Hseg; simpl; tauto.
    - exists ["users"; ":id"]. split; [done|]. split; [|reflexivity].
      repeat constructor; apply Hseg; simpl; tauto. }
  split; [exact Hprefix|]. split; [exact Hpatterns|].
  exact (proj2 (startup_log (Some "Users API")
                  [CSetRoutePrefix "/api";
                   CBindNewGETRoute "/test" next_id None None;
                   CBindNewDELETERoute "/users/:id" next_id None]
                  (Some 4000)) Hprefix Hpatterns).
Defined.

(** * Further properties of the class *)

(** ** Edge values of [maxResults], pure producers, what a handler reads *)

Section HandlerEdges.

Context {W : Type}.
Implicit Types (s : Schema W) (w : world W) (req : Request) (res : Res).

(** X1: [maxResults = 0] is falsy: the GET handler answers with one value, not
    with an empty list, exactly as when [maxResults] is left out. *)
Theorem GET_maxResults_zero_is_single s delay d req res w v h :
  s (heap w) = (Return v, h) ->
  GETHandler s (Some 0) delay d req res w
  = GETHandler s None delay d req res w
  /\ emitted (GETHandler s (Some 0) delay d req res w).1
     = Some (mkResponse 200 "application/json" v)
  /\ (GETHandler s (Some 0) delay d req res w).2
     = {| heap := h; invoked := invoked w ++ [v] |}.
Proof.
  intros Es. split; [reflexivity|].
  rewrite (GETHandler_one s (Some 0) delay d req res w v h) by done.
  simpl. by rewrite SendResponseWithDelay_emits.
Qed.

(** X2: A negative [maxResults] is truthy and counts as length [0]: the GET
    handler answers with the empty list, after the one invocation whose
    value it drops. *)
Theorem GET_maxResults_negative_is_empty s N delay d req res w v h :
  N < 0 ->
  s (heap w) = (Return v, h) ->
  emitted (GETHandler s (Some N) delay d req res w).1
  = Some (mkResponse 200 "application/json" (JArr []))
  /\ (GETHandler s (Some N) delay d req res w).2
     = {| heap := h; invoked := invoked w ++ [v] |}.
Proof.
  intros HN Es.
  rewrite (GETHandler_many s N delay d req res w v h [] h);
    [|lia|unfold max_array_length; lia|done
     |by replace (Z.to_nat N) with O by lia].
  simpl. by rewrite SendResponseWithDelay_emits.
Qed.

Lemma produce_pure s v n : forall h,
  (forall h', s h' = (Return v, h')) ->
  produce n s h = (Return (repeat v n), h).
Proof.
  induction n as [|n IH]; intros h Hs; simpl; [done|].
  rewrite Hs, (IH h Hs). reflexivity.
Qed.

(** X3: A producer that always returns the same value and leaves the heap
    alone: with [maxResults = N], [N] positive and no more than the longest
    array ([2^32 - 1]), the answer is [N] copies of that value and the heap
    is as it was. *)
Theorem GET_pure_producer_repeats s v N delay d req res w :
  (forall h, s h = (Return v, h)) ->
  0 < N <= max_array_length ->
  emitted (GETHandler s (Some N) delay d req res w).1
  = Some (mkResponse 200 "application/json" (JArr (copies N v)))
  /\ heap (GETHandler s (Some N) delay d req res w).2 = heap w.
Proof.
  intros Hs HN.
  rewrite (GETHandler_many s N delay d req res w v (heap w)
             (copies N v) (heap w));
    [|lia|lia|apply Hs|by apply produce_pure].
  simpl. by rewrite SendResponseWithDelay_emits.
Qed.

(** X4: A handler of the class reads nothing of the request and nothing of the
    response object, and the server delay changes only how the answer is
    delivered: the answer written and the invocations made are the same
    for any two requests, response objects and server delays. *)
Theorem handler_ignores_request (h : Handler W) d d' req req' res res' w :
  class_handler h ->
  emitted (h d req res w).1 = emitted (h d' req' res' w).1
  /\ (h d req res w).2 = (h d' req' res' w).2.
Proof.
  intros Hh. destruct (class_handler_shape h w Hh) as (dl & r & w' & E).
  rewrite !E. simpl. split; [|reflexivity].
  destruct r; [|reflexivity]. by rewrite !SendResponseWithDelay_emits.
Qed.

End HandlerEdges.

(** ** Routes, gates and delays in combination *)

Section Combination.

Context {W : Type}.
Context (path_match : string -> string -> bool).
Implicit Types (s : Schema W) (w : world W) (req : Request) (res : Res).
Implicit Types (this : MockServer W) (cs : list (call W)).
Implicit Types (stack pre post : list (layer W)).

Lemma class_handler_answers (h : Handler W) d req res w :
  class_handler h -> (h d req res w).1 <> Next.
Proof.
  intros Hh. destruct (class_handler_shape h w Hh) as (dl & r & w' & E).
  rewrite E. simpl. destruct r as [v|e]; [|discriminate].
  intros N. pose proof (SendResponseWithDelay_emits d res v dl) as He.
  rewrite N in He. discriminate.
Qed.


(** X5: A request that no registered route takes is answered by no handler: it
    leaves the router unanswered, or is refused by a gate; no producer is
    invoked. *)
Theorem unmatched_request_unanswered name cs req w :
  (forall b, b ∈ registered cs -> takes path_match req b = false) ->
  handle_request path_match (chain cs (CreateNewServer name)) req w
  = (Next, w)
  \/ handle_request path_match (chain cs (CreateNewServer name)) req w
     = (Sent (mkResponse 401 "application/json"
                (JObj [("message", JStr "Unauthorized")])),
        w).
Proof.
  intros Hcs. unfold handle_request. rewrite router_chain. simpl.
  apply (dispatch_bystanders path_match).
  by apply layers_of_bystanders.
Qed.

(** X6: The first registered of two bindings of the same method and pattern
    answers; the second one is never reached, wherever the pair sits in
    the stack. *)
Theorem duplicate_binding_is_dead
    pre post m path (h1 h2 : Handler W) d req w :
  class_handler h1 ->
  dispatch path_match (pre ++ LRoute m path h1 :: LRoute m path h2 :: post)
           d req w
  = dispatch path_match (pre ++ LRoute m path h1 :: post) d req w.
Proof.
  intros Hh. rewrite !dispatch_app.
  destruct (dispatch path_match pre d req w) as [o w']; destruct o;
    try reflexivity.
  simpl.
  destruct (bool_decide (m = req_method req)
            && path_match path (req_path req)); [|reflexivity].
  unfold bind.
  pose proof (class_handler_answers h1 d req fresh_res w' Hh) as Hans.
  destruct (h1 d req fresh_res w') as [o1 w1]. simpl in Hans.
  destruct o1; (reflexivity || contradiction).
Qed.

(** X7: After [BindCrudRoutes], a request of any of the five methods whose path
    matches the pattern derived for that method reaches the handler bound
    for that method: none of the five routes hides another, whatever the
    patterns match. *)
Theorem crud_routes_reachable moduleName s maxResults delay this req w :
  handle_request path_match this req w = (Next, w) ->
  path_match (crud_path moduleName (req_method req)) (req_path req) = true ->
  handle_request path_match
    (BindCrudRoutes moduleName s maxResults delay this) req w
  = crud_handler (req_method req) s maxResults delay
      (_delay this) req fresh_res w.
Proof.
  intros Hpre Hp. unfold handle_request in *.
  change (BindCrudRoutes moduleName s maxResults delay this)
    with (apply_call (CBindCrudRoutes moduleName s maxResults delay) this).
  change (_delay (apply_call
            (CBindCrudRoutes moduleName s maxResults delay) this))
    with (_delay this).
  rewrite router_apply_call, dispatch_app, Hpre.
  assert (class_handler (crud_handler (req_method req) s maxResults delay))
    as Hh.
  { destruct (req_method req); [left|right..]; simpl; eauto. }
  pose proof (class_handler_answers _ (_delay this) req fresh_res w Hh)
    as Hans.
  destruct (req_method req) eqn:Hm; simpl in *; rewrite Hm; simpl;
    rewrite Hp; unfold bind;
    match goal with
    | |- context [?h (_delay this) req fresh_res w] =>
        destruct (h (_delay this) req fresh_res w) as [o1 w1]
    end;
    simpl in Hans; destruct o1; (reflexivity || contradiction).
Qed.

End Combination.

(** ** Several gates, and the server delay *)

Section GatesAndDelays.

Context {W : Type}.
Context (path_match : string -> string -> bool).
Implicit Types (s : Schema W) (w : world W) (req : Request) (res : Res).
Implicit Types (this : MockServer W) (cs : list (call W)).
Implicit Types (stack : list (layer W)).
Implicit Types (gs : list (string * option string)).





Lemma apply_call_SetDelay (c : call W) d this :
  sets_delay c = false ->
  apply_call c (SetDelay d this) = SetDelay d (apply_call c this).
Proof. destruct c; simpl; intros H; (discriminate || reflexivity). Qed.

(** X9: [SetDelay] reaches the routes bound before it: as long as no other
    [SetDelay] intervenes, calling it before a chain of calls or after it
    builds the same server, whose delay is the one set. *)
Theorem SetDelay_reaches_earlier_routes cs d this :
  forallb (fun c => negb (sets_delay c)) cs = true ->
  SetDelay d (chain cs this) = chain cs (SetDelay d this)
  /\ _delay (SetDelay d (chain cs this)) = d.
Proof.
  intros Hcs. split; [|reflexivity]. unfold chain. revert this.
  induction cs as [|c cs IH]; intros this; simpl in *; [done|].
  apply andb_prop in Hcs as [Hc Hcs]. apply negb_true_iff in Hc.
  rewrite (apply_call_SetDelay c d this Hc). by apply IH.
Qed.

Lemma SendResponseWithDelay_alike d1 d2 res (v : json) delay :
  d1 <> 0 -> d2 <> 0 ->
  SendResponseWithDelay d1 res v delay = SendResponseWithDelay d2 res v delay.
Proof.
  intros H1 H2. unfold SendResponseWithDelay, truthy.
  destruct (Z.eqb_spec d1 0), (Z.eqb_spec d2 0); try lia. reflexivity.
Qed.

Lemma class_handler_alike (h : Handler W) d1 d2 req res w :
  class_handler h -> d1 <> 0 -> d2 <> 0 ->
  h d1 req res w = h d2 req res w.
Proof.
  intros Hh H1 H2.
  destruct (class_handler_shape h w Hh) as (dl & r & w' & E).
  rewrite !E. destruct r; [|reflexivity].
  by rewrite (SendResponseWithDelay_alike d1 d2).
Qed.

Lemma dispatch_alike stack d1 d2 req : forall w,
  Forall (fun l => match l with
                   | LRoute _ _ h => class_handler h
                   | LUse _ => True
                   end) stack ->
  d1 <> 0 -> d2 <> 0 ->
  dispatch path_match stack d1 req w = dispatch path_match stack d2 req w.
Proof.
  intros w Hst H1 H2. revert w.
  induction Hst as [|l stack Hl _ IH]; intros w; simpl; [done|].
  destruct l as [mw|m path h].
  - destruct (mw req fresh_res); try reflexivity. apply IH.
  - destruct (bool_decide (m = req_method req)
              && path_match path (req_path req)); [|apply IH].
    unfold bind. rewrite (class_handler_alike h d1 d2) by done.
    destruct (h d2 req fresh_res w) as [o w1].
    destruct o; try reflexivity. apply IH.
Qed.

(** X10: The number given to [SetDelay] counts only as zero or not zero: any two
    non-zero server delays make the server answer every request alike, down
    to the delay handed to the timer. *)
Theorem nonzero_server_delays_alike name cs d1 d2 req w :
  d1 <> 0 -> d2 <> 0 ->
  handle_request path_match
    (SetDelay d1 (chain cs (CreateNewServer name))) req w
  = handle_request path_match
      (SetDelay d2 (chain cs (CreateNewServer name))) req w.
Proof.
  intros H1 H2. unfold handle_request. simpl.
  apply dispatch_alike; try done.
  rewrite router_chain. simpl. apply List.Forall_forall.
  intros l Hl. destruct l as [mw|m path h]; [done|].
  apply in_flat_map in Hl as (c & _ & Hc).
  by apply layers_of_route in Hc.
Qed.

End GatesAndDelays.

(** ** The log before, and after more than one, [Start] *)

Section Logs.

Context {W : Type}.
Context (path_join : list string -> string).
Implicit Types (this : MockServer W) (cs : list (call W)).

(** X11: Whatever [path.join] returns, [joinPath] returns it with every
    backslash turned into a slash and every other character kept, in
    place: character by character the result is the joined path with
    [\] mapped to [/].  So the result has the same length and holds no
    backslash, and a joined path without backslashes is returned as it
    is. *)
Theorem joinPath_has_no_backslash (parts : list string) :
  list_ascii_of_string (joinPath path_join parts)
  = map (fun c => if Ascii.eqb c "\"%char then "/"%char else c)
        (list_ascii_of_string (path_join parts))
  /\ ~ In "\"%char (list_ascii_of_string (joinPath path_join parts))
  /\ String.length (joinPath path_join parts)
     = String.length (path_join parts)
  /\ (~ In "\"%char (list_ascii_of_string (path_join parts)) ->
      joinPath path_join parts = path_join parts).
Proof.
  unfold joinPath. split; [apply replace_backslashes_chars|].
  split; [apply replace_backslashes_clean|].
  split; [apply replace_backslashes_length|apply replace_backslashes_id].
Qed.

(** X12: Before [Start] the router is not mounted on the application:
    [logRoutes] then lists no route at all, however many were bound. *)
Theorem logRoutes_before_Start_lists_nothing name cs :
  let built := chain cs (CreateNewServer name) in
  logRoutes path_join built
  = [Group ("Registered Routes By " +:+ serverName built +:+ ":");
     Log ""; GroupEnd].
Proof.
  cbv zeta. unfold logRoutes. rewrite server_chain. reflexivity.
Qed.

(** X13: A second [Start] mounts the same router a second time: the log then
    lists every route twice, the whole list once and then once more. *)
Theorem second_Start_lists_routes_twice name cs port1 port2 :
  let built := chain cs (CreateNewServer name) in
  let line b := Log (METHOD6 b.1 +:+ " -  "
                     +:+ joinPath path_join [prefix_after cs ""; b.2]) in
  on_listening path_join port2 (Start port2 (Start port1 built))
  = [Log (serverName built +:+ " running at http://localhost:"
          +:+ pretty (default 3005 port2));
     Group ("Registered Routes By " +:+ serverName built +:+ ":")]
    ++ map line (registered cs) ++ map line (registered cs)
    ++ [Log ""; GroupEnd].
Proof.
  cbv zeta. unfold on_listening, logRoutes, Start. simpl.
  rewrite server_chain. simpl. rewrite app_nil_r.
  rewrite (route_lines path_join), router_chain, routePrefix_chain. simpl.
  rewrite <- app_assoc. reflexivity.
Qed.

End Logs.

(** ** The earlier revision: values fixed while binding *)

Section LegacyRoutes.

Context {W : Type}.
Context (path_match : string -> string -> bool).
Implicit Types (s : Schema W) (w : world W) (req : Request).
Implicit Types (this : MockServer W).

(** X14: In the earlier revision a POST route answers every request with the
    value the producer returned while the route was bound; handling a
    request invokes nothing, whatever the heap has become. *)
Theorem legacy_route_answers_binding_time_value
    route s this w0 v h req w :
  s (heap w0) = (Return v, h) ->
  handle_request path_match this req w = (Next, w) ->
  req_method req = POST ->
  path_match route (req_path req) = true ->
  let bound := router_push (LRoute POST route (Legacy.storedHandler v))
                 this in
  Legacy.BindNewPOSTRoute route s this w0
  = (Return bound, {| heap := h; invoked := invoked w0 ++ [v] |})
  /\ handle_request path_match bound req w
     = (Sent (mkResponse 200 "application/json" v), w).
Proof.
  intros Es Hpre Hm Hp bound. subst bound.
  rewrite (legacy_POST_invokes_while_binding route s this w0 v h Es).
  split; [reflexivity|]. unfold handle_request in *. simpl.
  rewrite dispatch_app, Hpre. by rewrite dispatch_route.
Qed.

(** X15: In the earlier revision [BindCrudRoutes] without [maxResults] invokes
    the producer five times while binding, once per route in the order
    GET, POST, PUT, DELETE, PATCH, and each route keeps its own value. *)
Theorem legacy_crud_binds_five_values
    moduleName s maxResults this w0 v1 v2 v3 v4 v5 h :
  truthy_opt maxResults = false ->
  produce 5 s (heap w0) = (Return [v1; v2; v3; v4; v5], h) ->
  exists bound,
    Legacy.BindCrudRoutes moduleName s maxResults this w0
    = (Return bound,
       {| heap := h; invoked := invoked w0 ++ [v1; v2; v3; v4; v5] |})
    /\ router bound
       = router this
         ++ [LRoute GET (crud_path moduleName GET) (Legacy.storedHandler v1);
             LRoute POST (crud_path moduleName POST)
                    (Legacy.storedHandler v2);
             LRoute PUT (crud_path moduleName PUT) (Legacy.storedHandler v3);
             LRoute DELETE (crud_path moduleName DELETE)
                    (Legacy.storedHandler v4);
             LRoute PATCH (crud_path moduleName PATCH)
                    (Legacy.storedHandler v5)].
Proof.
  intros Hm Hp. simpl in Hp.
  destruct (s (heap w0)) as [[a1|?] h1] eqn:E1; [|discriminate].
  destruct (s h1) as [[a2|?] h2] eqn:E2; [|discriminate].
  destruct (s h2) as [[a3|?] h3] eqn:E3; [|discriminate].
  destruct (s h3) as [[a4|?] h4] eqn:E4; [|discriminate].
  destruct (s h4) as [[a5|?] h5] eqn:E5; [|discriminate].
  inversion Hp; subst; clear Hp.
  unfold Legacy.BindCrudRoutes, Legacy.BindNewGETRoute,
    Legacy.BindNewPOSTRoute, Legacy.BindNewPUTRoute,
    Legacy.BindNewDELETERoute, Legacy.BindNewPATCHRoute.
  rewrite Hm. unfold bindT, bind, ret, invoke. simpl.
  rewrite E1. simpl. rewrite E2. simpl. rewrite E3. simpl.
  rewrite E4. simpl. rewrite E5. simpl.
  repeat rewrite <- (app_assoc (invoked w0)). simpl.
  eexists. split; [reflexivity|].
  simpl. repeat rewrite <- app_assoc. reflexivity.
Qed.

End LegacyRoutes.

(** ** Further worked instances *)

Lemma GET_maxResults_zero_is_single_witness :
  next_id (heap start_world) = (Return (JNum 0), 1%nat)
  /\ GETHandler next_id (Some 0) None 0 sample_request fresh_res start_world
     = GETHandler next_id None None 0 sample_request fresh_res start_world
  /\ emitted (GETHandler next_id (Some 0) None 0 sample_request fresh_res
                start_world).1
     = Some (mkResponse 200 "application/json" (JNum 0))
  /\ (GETHandler next_id (Some 0) None 0 sample_request fresh_res
        start_world).2
     = {| heap := 1%nat; invoked := [JNum 0] |}.
Proof.
  split; [reflexivity|].
  exact (GET_maxResults_zero_is_single next_id None 0 sample_request
           fresh_res start_world (JNum 0) 1%nat eq_refl).
Defined.

Lemma GET_maxResults_negative_is_empty_witness :
  -3 < 0
  /\ next_id (heap start_world) = (Return (JNum 0), 1%nat)
  /\ emitted (GETHandler next_id (Some (-3)) None 0 sample_request fresh_res
                start_world).1
     = Some (mkResponse 200 "application/json" (JArr []))
  /\ (GETHandler next_id (Some (-3)) None 0 sample_request fresh_res
        start_world).2
     = {| heap := 1%nat; invoked := [JNum 0] |}.
Proof.
  split; [lia|]. split; [reflexivity|].
  exact (GET_maxResults_negative_is_empty next_id (-3) None 0 sample_request
           fresh_res start_world (JNum 0) 1%nat ltac:(lia) eq_refl).
Defined.

Lemma GET_pure_producer_repeats_witness :
  (forall h, hello h = (Return (JObj [("message", JStr "hello")]), h))
  /\ 0 < 2 <= max_array_length
  /\ emitted (GETHandler hello (Some 2) None 0 sample_request fresh_res
                start_world).1
     = Some (mkResponse 200 "application/json"
               (JArr [JObj [("message", JStr "hello")];
                      JObj [("message", JStr "hello")]]))
  /\ heap (GETHandler hello (Some 2) None 0 sample_request fresh_res
             start_world).2 = O.
Proof.
  assert (0 < 2 <= max_array_length) as HN
    by (unfold max_array_length; lia).
  split; [reflexivity|]. split; [exact HN|].
  exact (GET_pure_producer_repeats hello (JObj [("message", JStr "hello")])
           2 None 0 sample_request fresh_res start_world
           (fun h => eq_refl) HN).
Defined.

Lemma handler_ignores_request_witness :
  let h := GETHandler next_id (Some 2) (Some 50) in
  class_handler h
  /\ emitted (h 0 sample_request fresh_res start_world).1
     = emitted (h 500 signed_request (status 404 fresh_res) start_world).1
  /\ (h 0 sample_request fresh_res start_world).2
     = (h 500 signed_request (status 404 fresh_res) start_world).2.
Proof.
  cbv zeta.
  assert (class_handler (GETHandler next_id (Some 2) (Some 50))) as Hh.
  { left. exists next_id, (Some 2), (Some 50). reflexivity. }
  split; [exact Hh|].
  exact (handler_ignores_request _ 0 500 sample_request signed_request
           fresh_res (status 404 fresh_res) start_world Hh).
Defined.

Lemma unmatched_request_unanswered_witness :
  let cs := [CEnableAuth "secret" None;
             CBindNewPOSTRoute "/login" next_id None] in
  (forall b, b ∈ registered cs ->
     takes literal_match sample_request b = false)
  /\ (handle_request literal_match (chain cs (CreateNewServer None))
        sample_request start_world = (Next, start_world)
      \/ handle_request literal_match (chain cs (CreateNewServer None))
           sample_request start_world
         = (Sent (mkResponse 401 "application/json"
                    (JObj [("message", JStr "Unauthorized")])),
            start_world)).
Proof.
  cbv zeta.
  assert (forall b,
            b ∈ registered [CEnableAuth "secret" None;
                            CBindNewPOSTRoute "/login" next_id None] ->
            takes literal_match sample_request b = false) as Hcs.
  { intros b Hb. apply list_elem_of_singleton in Hb. subst b. reflexivity. }
  split; [exact Hcs|].
  exact (unmatched_request_unanswered literal_match None _ sample_request
           start_world Hcs).
Defined.

Lemma duplicate_binding_is_dead_witness :
  let first := GETHandler next_id None None in
  let second := GETHandler hello (Some 3) None in
  class_handler first
  /\ dispatch literal_match
       ([] ++ LRoute GET "/users" first :: LRoute GET "/users" second :: [])
       0 sample_request start_world
     = dispatch literal_match ([] ++ LRoute GET "/users" first :: [])
         0 sample_request start_world.
Proof.
  cbv zeta.
  assert (class_handler (GETHandler next_id None None)) as Hh.
  { left. exists next_id, None, None. reflexivity. }
  split; [exact Hh|].
  exact (duplicate_binding_is_dead literal_match [] [] GET "/users" _
           (GETHandler hello (Some 3) None) 0 sample_request start_world Hh).
Defined.

Lemma crud_routes_reachable_witness :
  handle_request literal_match gated_server signed_request start_world
  = (Next, start_world)
  /\ literal_match (crud_path "users" (req_method signed_request))
       (req_path signed_request) = true
  /\ handle_request literal_match
       (BindCrudRoutes "users" next_id (Some 2) None gated_server)
       signed_request start_world
     = crud_handler (req_method signed_request) next_id (Some 2) None
         (_delay gated_server) signed_request fresh_res start_world.
Proof.
  split; [vm_compute; reflexivity|]. split; [reflexivity|].
  exact (crud_routes_reachable literal_match "users" next_id (Some 2) None
           gated_server signed_request start_world
           ltac:(vm_compute; reflexivity) eq_refl).
Defined.


Lemma SetDelay_reaches_earlier_routes_witness :
  let cs := [CSetRoutePrefix "/api"; CEnableAuth "secret" None;
             CBindCrudRoutes "users" next_id (Some 2) None] in
  forallb (fun c => negb (sets_delay c)) cs = true
  /\ SetDelay 500 (chain cs (CreateNewServer None))
     = chain cs (SetDelay 500 (CreateNewServer None))
  /\ _delay (SetDelay 500 (chain cs (CreateNewServer None))) = 500.
Proof.
  cbv zeta. split; [reflexivity|].
  exact (SetDelay_reaches_earlier_routes
           [CSetRoutePrefix "/api"; CEnableAuth "secret" None;
            CBindCrudRoutes "users" next_id (Some 2) None]
           500 (CreateNewServer None) eq_refl).
Defined.

Lemma nonzero_server_delays_alike_witness :
  let cs := [CBindNewGETRoute "/users" next_id None None] in
  500 <> 0 /\ 20 <> 0
  /\ handle_request literal_match
       (SetDelay 500 (chain cs (CreateNewServer None)))
       sample_request start_world
     = handle_request literal_match
         (SetDelay 20 (chain cs (CreateNewServer None)))
         sample_request start_world.
Proof.
  cbv zeta. split; [lia|]. split; [lia|].
  apply (nonzero_server_delays_alike literal_match None
           [CBindNewGETRoute "/users" next_id None None] 500 20
           sample_request start_world); lia.
Defined.

Lemma joinPath_has_no_backslash_witness :
  ~ In "\"%char (list_ascii_of_string (plain_join ["/api"; "/users"]))
  /\ joinPath plain_join ["/api"; "/users"] = "/api/users".
Proof.
  assert (~ In "\"%char
            (list_ascii_of_string (plain_join ["/api"; "/users"]))) as Hc.
  { vm_compute. intros H.
    repeat (destruct H as [H|H]; [discriminate H|]). exact H. }
  split; [exact Hc|].
  exact (proj2 (proj2 (proj2 (joinPath_has_no_backslash plain_join
                                ["/api"; "/users"]))) Hc).
Defined.

Lemma legacy_route_answers_binding_time_value_witness :
  let late := {| heap := 7%nat; invoked := [] |} in
  let bound := router_push
                 (LRoute POST "/users/create"
                    (Legacy.storedHandler (JNum 0))) gated_server in
  next_id (heap start_world) = (Return (JNum 0), 1%nat)
  /\ handle_request literal_match gated_server signed_request late
     = (Next, late)
  /\ req_method signed_request = POST
  /\ literal_match "/users/create" (req_path signed_request) = true
  /\ Legacy.BindNewPOSTRoute "/users/create" next_id gated_server
       start_world
     = (Return bound, {| heap := 1%nat; invoked := [JNum 0] |})
  /\ handle_request literal_match bound signed_request late
     = (Sent (mkResponse 200 "application/json" (JNum 0)), late).
Proof.
  cbv zeta. split; [reflexivity|]. split; [vm_compute; reflexivity|].
  split; [reflexivity|]. split; [reflexivity|].
  exact (legacy_route_answers_binding_time_value literal_match
           "/users/create" next_id gated_server start_world (JNum 0) 1%nat
           signed_request {| heap := 7%nat; invoked := [] |}
           eq_refl ltac:(vm_compute; reflexivity) eq_refl eq_refl).
Defined.

Lemma legacy_crud_binds_five_values_witness :
  truthy_opt None = false
  /\ produce 5 next_id (heap start_world)
     = (Return [JNum 0; JNum 1; JNum 2; JNum 3; JNum 4], 5%nat)
  /\ exists bound,
       Legacy.BindCrudRoutes "users" next_id None (CreateNewServer None)
         start_world
       = (Return bound,
          {| heap := 5%nat;
             invoked := [JNum 0; JNum 1; JNum 2; JNum 3; JNum 4] |})
       /\ router bound
          = [LRoute GET "/users" (Legacy.storedHandler (JNum 0));
             LRoute POST "/users/create" (Legacy.storedHandler (JNum 1));
             LRoute PUT "/users/update" (Legacy.storedHandler (JNum 2));
             LRoute DELETE "/users/delete" (Legacy.storedHandler (JNum 3));
             LRoute PATCH "/users/patch-update"
                    (Legacy.storedHandler (JNum 4))].
Proof.
  split; [reflexivity|]. split; [reflexivity|].
  exact (legacy_crud_binds_five_values "users" next_id None
           (CreateNewServer None) start_world
           (JNum 0) (JNum 1) (JNum 2) (JNum 3) (JNum 4) 5%nat
           eq_refl eq_refl).
Defined.
